(** * A bit-banged 1-wire bus master: model and verified properties

    The development embeds the driver of [onewire.cpp] / [onewire.h]:
    the CRC-8 validator, the pin primitives, the bit and byte transport,
    the reset and presence detection, the recursive bus search, and the
    rest of the public interface (constructor and destructor, multi-byte
    transport, ROM commands).

    Conventions.
    - A [uint8_t] is a [Z] in [0, 256); wrap-around is written out
      ([mod 256]) wherever the C code can overflow.
    - The hardware registers are explicit fields of the driver state; the
      input register is owned by the attached bus (class [Port]).
    - Loops whose exit depends on a wrapping counter take a [fuel]
      argument; [None] is "no defined outcome" (fuel exhausted, or a call
      through a null callback pointer). *)

From Stdlib Require Import ZArith Lia List Bool.
From stdpp Require Import base list option.
Import ListNotations.
Local Open Scope Z_scope.

(** ** Bytes *)

Definition isByte (x : Z) : Prop := 0 <= x < 256.

Definition allBytes : list Z := map Z.of_nat (seq 0 256).

(** ** CRC-8 (onewire.cpp, [crcUpdate8] and [crc8CheckIButton]) *)

Module Crc.

(** One round of the [for (i = 0; i < 8; i=i+1)] body of [crcUpdate8]. *)
Definition crcRound (crc : Z) : Z :=
  if negb (Z.land crc 0x01 =? 0)
  then Z.lxor (Z.shiftr crc 1) 0x8C
  else Z.shiftr crc 1.

(** [static uint8_t crcUpdate8(uint8_t crc, uint8_t data)]: the loop runs
    its body for i = 0..7 and the body does not mention [i]. *)
Definition crcUpdate8 (crc data : Z) : Z :=
  Nat.iter 8 crcRound (Z.lxor crc data).

(** [lpData[i]]; a read past the end of the buffer is outside the C
    semantics and reads as 0 here. *)
Definition peek (lpData : list Z) (i : Z) : Z :=
  default 0 (lpData !! Z.to_nat i).

(** The loop [for(i = 0; i < dwLen; i=i+1) crc = crcUpdate8(crc, lpData[i])]
    with [uint8_t i] and [unsigned int dwLen]: the comparison is done on
    the promoted values, the increment wraps at 256. *)
Fixpoint crc8Loop (fuel : nat) (lpData : list Z) (dwLen i crc : Z) : option Z :=
  match fuel with
  | O => None
  | S fuel' =>
      if i <? dwLen
      then crc8Loop fuel' lpData dwLen ((i + 1) mod 256) (crcUpdate8 crc (peek lpData i))
      else Some crc
  end.

(** [bool crc8CheckIButton(uint8_t* lpData, unsigned int dwLen, uint8_t crcToCheck)] *)
Definition crc8CheckIButton (fuel : nat) (lpData : list Z) (dwLen crcToCheck : Z)
  : option bool :=
  crc ← crc8Loop fuel lpData dwLen 0 0;
  Some (crcUpdate8 crc crcToCheck =? 0).

(** The running checksum of a byte sequence: start at 0, fold every byte
    in with [crcUpdate8]. *)
Definition crc8 (d : list Z) : Z := fold_left crcUpdate8 d 0.

End Crc.

(** ** CRC-8 as specified

    Two descriptions of the checksum that do not come from the driver:
    the round and the byte update as the specification words them, and
    CRC-8/Maxim as the shift register of the 1-wire devices. *)

Module CrcSpec.

(** One round: if the low bit is set, shift right and XOR with 0x8C,
    else shift right. *)
Definition specRound (c : Z) : Z :=
  if Z.odd c then Z.lxor (c / 2) 0x8C else c / 2.

(** XOR the byte into the checksum, then 8 rounds. *)
Definition specUpdate (crc byte : Z) : Z :=
  specRound (specRound (specRound (specRound
    (specRound (specRound (specRound (specRound (Z.lxor crc byte)))))))).

(** Does [c] pass as checksum of the first [n] bytes of [d]: start at 0,
    fold in the data bytes, fold in [c], compare with 0. *)
Definition specValid (n : nat) (d : list Z) (c : Z) : bool :=
  fold_left specUpdate (take n d ++ [c]) 0 =? 0.

(** CRC-8/Maxim: the bits of the message enter the register one at a
    time, least significant bit of each byte first; the feedback is the
    entering bit XOR the low bit of the register; the register shifts
    right and, when the feedback is 1, the taps of x^8 + x^5 + x^4 + 1
    (0x8C, reflected) are XORed in. *)
Definition maximBit (reg : Z) (bit : bool) : Z :=
  if xorb (Z.odd reg) bit then Z.lxor (reg / 2) 0x8C else reg / 2.

Definition maximByte (reg byte : Z) : Z :=
  fold_left maximBit (map (Z.testbit byte) [0; 1; 2; 3; 4; 5; 6; 7]) reg.

(** The checksum of a message: the register, started at 0, after all
    bytes have gone in. *)
Definition maximCrc (d : list Z) : Z := fold_left maximByte d 0.

(** The digits "123456789", the message for which the CRC catalogues
    list check values; 0xA1 for CRC-8/Maxim. *)
Definition checkMessage : list Z :=
  [0x31; 0x32; 0x33; 0x34; 0x35; 0x36; 0x37; 0x38; 0x39].

End CrcSpec.

(** ** The pin, the timer and the interrupt flag

    Every primitive the driver calls leaves one event; the attached bus
    sees the events in order and decides what the input register reads. *)

Inductive Event : Type :=
| EvNoInterrupts
| EvInterrupts
| EvPinLow
| EvPinHigh
| EvPinModeInput
| EvPinModeOutput
| EvPinRead (level : Z)
| EvDelay (us : Z).

(** What is wired to the pin: [portInput] is the content of the input
    register [ioRegister[0]], [portStep] the reaction to an event. *)
Class Port (Env : Type) : Type := {
  portInput : Env -> Z;
  portStep : Event -> Env -> Env
}.

(** What a call of a non-void function hands back: a value, or nothing
    when control runs off the end of the body without a [return]. *)
Inductive RetVal : Type :=
| Returned (v : Z)
| NoReturnValue.

(** [#define ONEWIRE_RETRY_RESETWAITHIGH 200] *)
Definition ONEWIRE_RETRY_RESETWAITHIGH : Z := 200.

Section Driver.

Context {Env : Type} `{!Port Env} {Callback : Type}.

(** The members of [InterfaceOneWire] (build without
    [ONEWIRE_ACTIVE_PULLUP], as [onewire.h] configures it), the interrupt
    flag, the event log and the log of callback invocations. *)
Record State : Type := mkState {
  bus : Env;
  ioDDR : Z;
  ioPORT : Z;
  ioRegisterMask : Z;
  interruptsEnabled : bool;
  trace : list Event;
  adrCurrent : list Z;
  discoveredDevices : Z;
  discoverCallback : option Callback;
  reported : list (list Z)
}.

Definition emit (e : Event) (s : State) : State :=
  let 'mkState b ddr port mask irq t adr n cb rep := s in
  mkState (portStep e b) ddr port mask irq (t ++ [e]) adr n cb rep.

Definition setDDR (v : Z) (s : State) : State :=
  let 'mkState b _ port mask irq t adr n cb rep := s in
  mkState b v port mask irq t adr n cb rep.

Definition setPORT (v : Z) (s : State) : State :=
  let 'mkState b ddr _ mask irq t adr n cb rep := s in
  mkState b ddr v mask irq t adr n cb rep.

Definition setInterrupts (enabled : bool) (s : State) : State :=
  let 'mkState b ddr port mask _ t adr n cb rep := s in
  mkState b ddr port mask enabled t adr n cb rep.

Definition setAdrCurrent (a : list Z) (s : State) : State :=
  let 'mkState b ddr port mask irq t _ n cb rep := s in
  mkState b ddr port mask irq t a n cb rep.

Definition setDiscoveredDevices (v : Z) (s : State) : State :=
  let 'mkState b ddr port mask irq t adr _ cb rep := s in
  mkState b ddr port mask irq t adr v cb rep.

Definition setDiscoverCallback (c : option Callback) (s : State) : State :=
  let 'mkState b ddr port mask irq t adr n _ rep := s in
  mkState b ddr port mask irq t adr n c rep.

Definition report (id : list Z) (s : State) : State :=
  let 'mkState b ddr port mask irq t adr n cb rep := s in
  mkState b ddr port mask irq t adr n cb (rep ++ [id]).

(** *** Hardware I/O routines (onewire.h) *)

Definition noInterrupts (s : State) : State :=
  emit EvNoInterrupts (setInterrupts false s).

Definition interrupts (s : State) : State :=
  emit EvInterrupts (setInterrupts true s).

Definition delayMicroseconds (us : Z) (s : State) : State :=
  emit (EvDelay us) s.

(** [return ((ioRegister[0] & ioRegisterMask) != 0) ? 1 : 0;] *)
Definition pinRead (s : State) : Z * State :=
  let v := if negb (Z.land (portInput (bus s)) (ioRegisterMask s) =? 0) then 1 else 0 in
  (v, emit (EvPinRead v) s).

(** [ioRegister[2] = ioRegister[2] & (~ioRegisterMask);] *)
Definition pinLow (s : State) : State :=
  emit EvPinLow (setPORT (Z.land (ioPORT s) (Z.lnot (ioRegisterMask s))) s).

(** [ioRegister[2] = ioRegister[2] | ioRegisterMask;] *)
Definition pinHigh (s : State) : State :=
  emit EvPinHigh (setPORT (Z.lor (ioPORT s) (ioRegisterMask s)) s).

(** [ioRegister[1] = ioRegister[1] & (~ioRegisterMask); pinLow();] *)
Definition pinModeInput (s : State) : State :=
  pinLow (emit EvPinModeInput (setDDR (Z.land (ioDDR s) (Z.lnot (ioRegisterMask s))) s)).

(** [ioRegister[1] = ioRegister[1] | ioRegisterMask;] *)
Definition pinModeOutput (s : State) : State :=
  emit EvPinModeOutput (setDDR (Z.lor (ioDDR s) (ioRegisterMask s)) s).

(** *** Bit transport *)

(** [void writeBit(uint8_t value, bool keepInterruptsDisabled)] *)
Definition writeBit (value : Z) (keepInterruptsDisabled : bool) (s : State) : State :=
  if negb (value =? 0) then
    let s := noInterrupts s in
    let s := pinLow s in
    let s := pinModeOutput s in
    let s := delayMicroseconds 10 s in
    let s := pinHigh s in
    let s := delayMicroseconds 55 s in
    let s := pinModeInput s in
    if negb keepInterruptsDisabled then interrupts s else s
  else
    let s := noInterrupts s in
    let s := pinLow s in
    let s := pinModeOutput s in
    let s := delayMicroseconds 65 s in
    let s := pinHigh s in
    let s := delayMicroseconds 5 s in
    let s := pinModeInput s in
    if negb keepInterruptsDisabled then interrupts s else s.

(** [uint8_t readBit()] *)
Definition readBit (s : State) : Z * State :=
  let s := noInterrupts s in
  let s := pinLow s in
  let s := pinModeOutput s in
  let s := delayMicroseconds 5 s in
  let s := pinModeInput s in
  let s := delayMicroseconds 10 s in
  let '(result, s) := pinRead s in
  let s := interrupts s in
  let s := delayMicroseconds 55 s in
  (result, s).

(** *** Bus sequencer *)

(** The [do ... while(mask != 0x00)] loop of [writeByte]; [mask] is a
    [uint8_t], the shift wraps. *)
Fixpoint writeByteLoop (fuel : nat) (byte mask : Z) (pullup : bool) (s : State)
  : option State :=
  match fuel with
  | O => None
  | S fuel' =>
      let s := writeBit (Z.land byte mask) (if mask =? 0x80 then pullup else false) s in
      let mask := Z.shiftl mask 1 mod 256 in
      if negb (mask =? 0x00) then writeByteLoop fuel' byte mask pullup s else Some s
  end.

(** [void writeByte(uint8_t byte, bool pullup)] *)
Definition writeByte (byte : Z) (pullup : bool) (s : State) : option State :=
  s ← writeByteLoop 8 byte 0x01 pullup s;
  if pullup then Some (pinModeOutput (pinHigh s)) else Some (pinModeInput s).

(** [void activePullupDisable()] *)
Definition activePullupDisable (s : State) : State :=
  interrupts (pinModeInput s).

(** The [do ... while(mask != 0)] loop of [readByte]. *)
Fixpoint readByteLoop (fuel : nat) (res mask : Z) (s : State) : option (Z * State) :=
  match fuel with
  | O => None
  | S fuel' =>
      let '(bit, s) := readBit s in
      let res := if negb (bit =? 0) then Z.lor res mask else res in
      let mask := Z.shiftl mask 1 mod 256 in
      if negb (mask =? 0) then readByteLoop fuel' res mask s else Some (res, s)
  end.

(** [uint8_t readByte()] *)
Definition readByte (s : State) : option (Z * State) :=
  readByteLoop 8 0x00 0x01 s.

(** The idle wait of [resetAndPresenceDetection]:
    [do { if((retryCount = retryCount - 1) == 0) return false;
          delayMicroseconds(5); } while(pinRead() == 0);]
    The result is [false] for the [return false], [true] when the loop
    is left because the line read high. *)
Fixpoint resetWaitHigh (fuel : nat) (retryCount : Z) (s : State) : option (bool * State) :=
  match fuel with
  | O => None
  | S fuel' =>
      let retryCount := (retryCount - 1) mod 256 in
      if retryCount =? 0 then Some (false, s)
      else
        let s := delayMicroseconds 5 s in
        let '(level, s) := pinRead s in
        if level =? 0 then resetWaitHigh fuel' retryCount s else Some (true, s)
  end.

(** The part of [resetAndPresenceDetection] after the idle wait. *)
Definition resetPulse (s : State) : bool * State :=
  let s := pinLow s in
  let s := pinModeOutput s in
  let s := interrupts s in
  let s := delayMicroseconds 480 s in
  let s := noInterrupts s in
  let s := pinModeInput s in
  let s := delayMicroseconds 60 s in
  let '(result, s) := pinRead s in
  let s := interrupts s in
  let s := delayMicroseconds 420 s in
  (result =? 0, s).

(** [bool resetAndPresenceDetection()], with the retry count of the build
    as an argument. *)
Definition resetAndPresenceDetectionWith (retry : Z) (s : State) : option (bool * State) :=
  let s := noInterrupts s in
  let s := pinModeInput s in
  '(idle, s) ← resetWaitHigh 256 (retry mod 256) s;
  if (idle : bool) then Some (resetPulse s) else Some (false, s).

Definition resetAndPresenceDetection (s : State) : option (bool * State) :=
  resetAndPresenceDetectionWith ONEWIRE_RETRY_RESETWAITHIGH s.

(** *** Bus enumerator *)

(** [this->adrCurrent[level / 8] &= (~(0x01 << (level % 8)));]
    (for [level >= 64] the C code writes past the array; the model leaves
    the array as it is). *)
Definition adrClearBit (level : Z) (s : State) : State :=
  setAdrCurrent
    (<[Z.to_nat (level / 8) :=
         Z.land (Crc.peek (adrCurrent s) (level / 8)) (Z.lnot (Z.shiftl 0x01 (level mod 8)))]>
       (adrCurrent s)) s.

(** [this->adrCurrent[level / 8] |= (0x01 << (level % 8));] *)
Definition adrSetBit (level : Z) (s : State) : State :=
  setAdrCurrent
    (<[Z.to_nat (level / 8) :=
         Z.lor (Crc.peek (adrCurrent s) (level / 8)) (Z.shiftl 0x01 (level mod 8))]>
       (adrCurrent s)) s.

(** [((this->adrCurrent[i / 8] & (0x01 << (i % 8))) == 0) ? 0 : 1] *)
Definition adrBit (i : Z) (s : State) : Z :=
  if Z.land (Crc.peek (adrCurrent s) (i / 8)) (Z.shiftl 0x01 (i mod 8)) =? 0 then 0 else 1.

(** Body of the replay loop: two discarded reads, one write. *)
Definition replayStep (s : State) (i : Z) : State :=
  let '(_, s) := readBit s in
  let '(_, s) := readBit s in
  writeBit (adrBit i s) false s.

(** [for(i = 0; i < level; i=i+1) { ... }] with [uint8_t i, level]. *)
Definition replay (level : Z) (s : State) : State :=
  fold_left replayStep (map Z.of_nat (seq 0 (Z.to_nat level))) s.

(** [writeByte(0xF0, false)] or, for an alarm search, [writeByte(0xEC, false)]. *)
Definition searchCommand (alarmSearch : bool) (s : State) : option State :=
  if negb alarmSearch then writeByte 0xF0 false s else writeByte 0xEC false s.

(** [this->discoverCallback(this->adrCurrent);]
    The callback is the caller's code: the model logs the identifier it is
    handed and takes it not to write through the pointer nor to call the
    driver. A call through a null pointer has no defined outcome. *)
Definition invokeCallback (s : State) : option State :=
  match discoverCallback s with
  | Some _ => Some (report (adrCurrent s) s)
  | None => None
  end.

(** [void discoveryDevicesRecursive(uint8_t level, bool alarmSearch)] *)
Fixpoint discoveryDevicesRecursive (fuel : nat) (level : Z) (alarmSearch : bool)
    (s : State) : option State :=
  match fuel with
  | O => None
  | S fuel' =>
      if level =? 8 * 8 then
        valid ← Crc.crc8CheckIButton 8 (adrCurrent s) (8 - 1) (Crc.peek (adrCurrent s) (8 - 1));
        if (valid : bool) then invokeCallback s else Some s
      else
        let '(a, s) := readBit s in
        let '(b, s) := readBit s in
        if (a =? 1) && (b =? 1) then Some s
        else if (a =? 0) && (b =? 1) then
          let s := adrClearBit level s in
          let s := writeBit 0 false s in
          discoveryDevicesRecursive fuel' ((level + 1) mod 256) alarmSearch s
        else if (a =? 1) && (b =? 0) then
          let s := adrSetBit level s in
          let s := writeBit 1 false s in
          discoveryDevicesRecursive fuel' ((level + 1) mod 256) alarmSearch s
        else
          let s := adrClearBit level s in
          let s := writeBit 0 false s in
          s ← discoveryDevicesRecursive fuel' ((level + 1) mod 256) alarmSearch s;
          '(present, s) ← resetAndPresenceDetection s;
          if negb present then Some s
          else
            s ← searchCommand alarmSearch s;
            let s := replay level s in
            let s := adrSetBit level s in
            let '(_, s) := readBit s in
            let '(_, s) := readBit s in
            let s := writeBit 1 false s in
            discoveryDevicesRecursive fuel' ((level + 1) mod 256) alarmSearch s
  end.

(** [for(uint8_t i = 0; i < sizeof(adrCurrent); i=i+1) adrCurrent[i] = 0x00;] *)
Definition clearAdrCurrent (s : State) : State :=
  fold_left (fun s i => setAdrCurrent (<[i := 0x00]> (adrCurrent s)) s) (seq 0 8) s.

(** [unsigned int discoverDevices(callback, alarmSearch)]. The body ends
    with the call of [discoveryDevicesRecursive(0, alarmSearch)]; there is
    no [return] after it. *)
Definition discoverDevices (callback : option Callback) (alarmSearch : bool) (s : State)
  : option (RetVal * State) :=
  let s := setDiscoveredDevices 0 s in
  let s := setDiscoverCallback callback s in
  match callback with
  | None => Some (Returned 0, s)
  | Some _ =>
      let s := clearAdrCurrent s in
      '(present, s) ← resetAndPresenceDetection s;
      if negb present then Some (Returned 0, s)
      else
        s ← searchCommand alarmSearch s;
        s ← discoveryDevicesRecursive 65 0 alarmSearch s;
        Some (NoReturnValue, s)
  end.

(** The pin drives the line high: output mode with the output bit set. *)
Definition lineDrivenHigh (s : State) : Prop :=
  Z.land (ioDDR s) (ioRegisterMask s) <> 0 /\ Z.land (ioPORT s) (ioRegisterMask s) <> 0.

(** The pin floats: input mode, internal pull-up off. *)
Definition lineFloating (s : State) : Prop :=
  Z.land (ioDDR s) (ioRegisterMask s) = 0 /\ Z.land (ioPORT s) (ioRegisterMask s) = 0.

End Driver.

Arguments State Env Callback : clear implicits.

(** ** Vocabulary of the properties *)

(** An 8-byte identifier whose last byte is the checksum of the first 7. *)
Definition validRom (id : list Z) : Prop :=
  length id = 8%nat /\ Forall isByte id /\ Crc.peek id 7 = Crc.crc8 (take 7 id).

Section Vocabulary.

Context {Env : Type} `{!Port Env} {Callback : Type}.

(** [s'] differs from [s] in the hardware part only: registers,
    interrupt flag, event log and bus. *)
Definition sameSoft (s s' : State Env Callback) : Prop :=
  ioRegisterMask s' = ioRegisterMask s /\
  adrCurrent s' = adrCurrent s /\
  discoveredDevices s' = discoveredDevices s /\
  discoverCallback s' = discoverCallback s /\
  reported s' = reported s.

(** The identifier buffer is an array of 8 bytes. *)
Definition wfAdr (s : State Env Callback) : Prop :=
  length (adrCurrent s) = 8%nat /\ Forall isByte (adrCurrent s).

(** [s'] was reached from [s] by adding the events [evs] to the log. *)
Definition logged (s s' : State Env Callback) (evs : list Event) : Prop :=
  trace s' = trace s ++ evs.

(** From [s] to [s'] the device counter and the callback pointer are
    kept and the callback log only grew; if the identifier buffer was
    well formed it still is, and every identifier added to the log is
    valid. *)
Definition grows (s s' : State Env Callback) : Prop :=
  discoveredDevices s' = discoveredDevices s /\
  discoverCallback s' = discoverCallback s /\
  exists new, reported s' = reported s ++ new /\
              (wfAdr s -> wfAdr s' /\ Forall validRom new).

End Vocabulary.

(** [n] polls of the idle wait that all read low. *)
Definition lowPolls (n : nat) : list Event :=
  concat (repeat [EvDelay 5; EvPinRead 0] n).

(** The events of the reset pulse and the presence sample [v]. *)
Definition pulseEvents (v : Z) : list Event :=
  [EvPinLow; EvPinModeOutput; EvInterrupts; EvDelay 480;
   EvNoInterrupts; EvPinModeInput; EvPinLow; EvDelay 60;
   EvPinRead v; EvInterrupts; EvDelay 420].

(** The events of one write slot. *)
Definition slotEvents (value : Z) (keepInterruptsDisabled : bool) : list Event :=
  [EvNoInterrupts; EvPinLow; EvPinModeOutput;
   EvDelay (if negb (value =? 0) then 10 else 65); EvPinHigh;
   EvDelay (if negb (value =? 0) then 55 else 5); EvPinModeInput; EvPinLow]
  ++ (if keepInterruptsDisabled then [] else [EvInterrupts]).

(** Number of iterations the idle wait can make before it gives up, for
    a start value [r] of the 8-bit retry counter. *)
Definition waitRounds (r : Z) : Z := (r - 1) mod 256 + 1.

Section TransportVocabulary.

Context {Env : Type} `{!Port Env} {Callback : Type}.

(** The write slots of the masks 0x01 .. 0x40, none of them holding the
    interrupts. *)
Definition firstSevenBits (byte : Z) (s : State Env Callback) : State Env Callback :=
  fold_left (fun s mask => writeBit (Z.land byte mask) false s)
            [0x01; 0x02; 0x04; 0x08; 0x10; 0x20; 0x40] s.

(** [n] read slots in a row: the sampled bits, first read first. *)
Fixpoint readBits (n : nat) (s : State Env Callback) : list Z * State Env Callback :=
  match n with
  | O => ([], s)
  | S n' =>
      let '(bit, s) := readBit s in
      let '(rest, s) := readBits n' s in
      (bit :: rest, s)
  end.

End TransportVocabulary.

(** The number whose binary digits, least significant first, are the
    given bits (a bit counts as 1 when it is not 0). *)
Definition assemble (bits : list Z) : Z :=
  fold_right (fun bit acc => (if negb (bit =? 0) then 1 else 0) + 2 * acc) 0 bits.

(** The bits of a byte, least significant first. *)
Definition lsbFirst (byte : Z) : list bool :=
  map (Z.testbit byte) [0; 1; 2; 3; 4; 5; 6; 7].

(** The events of a byte written without pull-up: eight write slots, for
    the masks 0x01 up to 0x80, then the pin released. *)
Definition byteEvents (byte : Z) : list Event :=
  concat (map (fun mask => slotEvents (Z.land byte mask) false)
              [0x01; 0x02; 0x04; 0x08; 0x10; 0x20; 0x40; 0x80])
  ++ [EvPinModeInput; EvPinLow].

(** The events of one read slot that sampled [v]. *)
Definition readEvents (v : Z) : list Event :=
  [EvNoInterrupts; EvPinLow; EvPinModeOutput; EvDelay 5;
   EvPinModeInput; EvPinLow; EvDelay 10; EvPinRead v; EvInterrupts; EvDelay 55].

(** The events of the search command: the byte 0xF0, or 0xEC for an
    alarm search. *)
Definition searchCommandEvents (alarmSearch : bool) : list Event :=
  byteEvents (if alarmSearch then 0xEC else 0xF0).

(** Bit [i] of a 64-bit identifier held as 8 bytes: bit [i mod 8] of
    byte [i / 8]. *)
Definition bitOf (adr : list Z) (i : Z) : bool :=
  Z.testbit (Crc.peek adr (i / 8)) (i mod 8).

(** [after] is [before] with bit [level] recorded as [b]: that bit has
    the value [b], the other 63 are as they were. *)
Definition records (level : Z) (b : bool) (before after : list Z) : Prop :=
  bitOf after level = b
  /\ forall i, 0 <= i < 64 -> i <> level -> bitOf after i = bitOf before i.

(** The events of a replay of the depths [0 .. length reads): at depth
    [i] two read slots, with the samples [reads] has at [i], and a write
    slot for bit [i] of [adr]. *)
Definition replayEvents (adr : list Z) (reads : list (Z * Z)) : list Event :=
  concat (imap (fun i '(x, y) =>
                  readEvents x ++ readEvents y
                  ++ slotEvents (Z.b2z (bitOf adr (Z.of_nat i))) false) reads).

(** ** Simulated buses *)

(** *** A scripted bus

    The bus holds the input-register values of the samples still to come;
    every [pinRead] consumes one. An exhausted script reads as an idle
    (pulled-up) line. *)
Module ScriptBus.

Definition Env : Type := list Z.

#[global] Instance port : Port Env := {|
  portInput e := match e with v :: _ => v | [] => 0xFF end;
  portStep ev e := match ev with EvPinRead _ => tail e | _ => e end
|}.

(** Samples of a reset: line idle on the first poll, then the given
    presence sample. *)
Definition resetSamples (presence : bool) : list Z :=
  [0xFF; if presence then 0x00 else 0xFF].

(** Samples of one search step when every participating device has
    [bit] at this position: the bit, then its complement. *)
Definition agreeSamples (bit : bool) : list Z :=
  if bit then [0xFF; 0x00] else [0x00; 0xFF].

(** Samples of a search step where devices disagree. *)
Definition collisionSamples : list Z := [0x00; 0x00].

(** Bit [i] of a ROM identifier given as 8 bytes. *)
Definition romBit (rom : list Z) (i : nat) : bool :=
  Z.testbit (Crc.peek rom (Z.of_nat (i / 8))) (Z.of_nat (i mod 8)).

(** Samples of the search steps [from .. from + n) when a single device
    with identifier [rom] is still participating. *)
Definition walkSamples (rom : list Z) (from n : nat) : list Z :=
  flat_map (fun i => agreeSamples (romBit rom i)) (seq from n).

(** A state of the driver attached to a scripted bus: registers cleared,
    the pin on bit 0 of its port, interrupts enabled. *)
Definition start (script : list Z) (adr : list Z) (cb : option nat) : State Env nat :=
  mkState script 0 0 0x01 true [] adr 0 cb [].

End ScriptBus.

(** *** A loopback device

    The device watches the line. The master starts a time slot by driving
    the line low. In each of the first 8 slots the device takes the bit the
    master writes: 1 if the low pulse was shorter than 15 us, else 0. In
    every later slot it answers with the recorded bits, first recorded
    first, by holding the line low for a 0 during the first 60 us of the
    slot. *)
Module Loopback.

Record Env : Type := mkEnv {
  output : bool;          (* pin in output mode *)
  high : bool;            (* output bit of the pin *)
  lowTime : Z;            (* us the master has held the line low in this slot *)
  slotTime : Z;           (* us since the slot began *)
  slots : nat;            (* low pulses completed *)
  bits : list bool        (* bits taken from the master *)
}.

Definition driving (e : Env) : bool := output e && negb (high e).

(** The pin changes mode or output bit: a falling edge opens a slot, the
    end of the low pulse closes the master's part of it. *)
Definition retarget (o h : bool) (e : Env) : Env :=
  let now := o && negb h in
  if negb (driving e) && now then mkEnv o h 0 0 (slots e) (bits e)
  else if driving e && negb now then
    mkEnv o h (lowTime e) (slotTime e) (S (slots e))
          (if (slots e <? 8)%nat then bits e ++ [lowTime e <? 15] else bits e)
  else mkEnv o h (lowTime e) (slotTime e) (slots e) (bits e).

Definition step (ev : Event) (e : Env) : Env :=
  match ev with
  | EvPinLow => retarget (output e) false e
  | EvPinHigh => retarget (output e) true e
  | EvPinModeInput => retarget false (high e) e
  | EvPinModeOutput => retarget true (high e) e
  | EvDelay us =>
      mkEnv (output e) (high e)
            (if driving e then lowTime e + us else lowTime e)
            (slotTime e + us) (slots e) (bits e)
  | _ => e
  end.

(** The line: low while the master drives low, high while it drives
    high; floating, the device may hold it low. *)
Definition input (e : Env) : Z :=
  if driving e then 0x00
  else if output e then 0xFF
  else if (9 <=? slots e)%nat && (slotTime e <? 60)
          && negb (nth (slots e - 9) (bits e) true)
       then 0x00 else 0xFF.

#[global] Instance port : Port Env := {| portInput := input; portStep := step |}.

Definition idle : Env := mkEnv false false 0 0 0 [].

Definition start : State Env nat :=
  mkState idle 0 0 0x01 true [] [0; 0; 0; 0; 0; 0; 0; 0] 0 None [].

End Loopback.

(** ** Concrete buses used to run the driver *)

Module Scenario.

(** A device identifier with a valid checksum (family 0x02), one that
    differs from it in bit 0 (family 0x03), and one with a wrong last
    byte. *)
Definition romA : list Z := [0x02; 0x1C; 0xB8; 0x01; 0x00; 0x00; 0x00; 0xA2].
Definition romB : list Z := [0x03; 0x1C; 0xB8; 0x01; 0x00; 0x00; 0x00; 0x9F].
Definition romCorrupt : list Z := [0x02; 0x1C; 0xB8; 0x01; 0x00; 0x00; 0x00; 0xA3].

Definition zeroAdr : list Z := [0; 0; 0; 0; 0; 0; 0; 0].

(** One device on the bus: presence pulse after the reset, then the 64
    bit/complement pairs of its identifier. *)
Definition oneDevice (rom : list Z) : State ScriptBus.Env nat :=
  ScriptBus.start (ScriptBus.resetSamples true ++ ScriptBus.walkSamples rom 0 64)
                  zeroAdr None.

(** The line is held low for good (a short circuit). *)
Definition stuckLow : State ScriptBus.Env nat :=
  ScriptBus.start (repeat 0x00 300) zeroAdr None.

(** The line reads low on 199 samples and high from the 200th on; a
    device answers the reset pulse. *)
Definition lateIdle : State ScriptBus.Env nat :=
  ScriptBus.start (repeat 0x00 199 ++ ScriptBus.resetSamples true) zeroAdr None.

(** The search, just after the search command, with [romA] and [romB]
    on the bus: collision at depth 0, [romA] down the 0 branch, reset
    with the given presence sample, the collision again, [romB] down the
    1 branch. *)
Definition twoDevices (presenceAtReplay : bool) : State ScriptBus.Env nat :=
  ScriptBus.start
    (ScriptBus.collisionSamples ++ ScriptBus.walkSamples romA 1 63
     ++ ScriptBus.resetSamples presenceAtReplay
     ++ ScriptBus.collisionSamples ++ ScriptBus.walkSamples romB 1 63)
    zeroAdr (Some 0%nat).

(** A second device, whose identifier differs from [romA] in bit 9. *)
Definition romC : list Z := [0x02; 0x1E; 0xB8; 0x01; 0x00; 0x00; 0x00; 0xCC].

(** The search at depth 9 with [romA] and [romC] on the bus and the 9
    bits they share already in the buffer: collision at depth 9, [romA]
    down the 0 branch, reset with a presence pulse, the 9 shared bits on
    the replay, the collision again, [romC] down the 1 branch. *)
Definition collisionAtNine : State ScriptBus.Env nat :=
  ScriptBus.start
    (ScriptBus.collisionSamples ++ ScriptBus.walkSamples romA 10 54
     ++ ScriptBus.resetSamples true
     ++ ScriptBus.walkSamples romA 0 9
     ++ ScriptBus.collisionSamples ++ ScriptBus.walkSamples romC 10 54)
    [0x02; 0; 0; 0; 0; 0; 0; 0] (Some 0%nat).

(** A driver state with the pin on bit 5 of its port and other pins of
    the port in use. *)
Definition busyPort : State ScriptBus.Env nat :=
  mkState [] 0x81 0x42 0x20 true [] zeroAdr 0 None [].

End Scenario.

(** Writing [byte] to the loopback device and reading a byte back: did
    the device take the bits of [byte], least significant first, and did
    the read return [byte]? *)
Definition loopbackCheck (byte : Z) : bool :=
  match writeByte byte false Loopback.start with
  | Some s1 =>
      bool_decide (Loopback.bits (bus s1) = lsbFirst byte)
      && match readByte s1 with
         | Some (r, _) => r =? byte
         | None => false
         end
  | None => false
  end.

(** ** The rest of the public interface *)

Section Interface.

Context {Env : Type} `{!Port Env} {Callback : Type}.

Definition setRegisterMask (m : Z) (s : State Env Callback) : State Env Callback :=
  let 'mkState b ddr port _ irq t adr n cb rep := s in
  mkState b ddr port m irq t adr n cb rep.

(** [InterfaceOneWire::InterfaceOneWire(uint8_t ioPin, uint8_t activePullupPin)]
    in the build without [ONEWIRE_ACTIVE_PULLUP]. The Arduino table
    [digitalPinToBitMask] is an argument; the port that
    [portInputRegister(digitalPinToPort(ioPin))] selects is the one whose
    registers and bus the state holds. The other members are left as
    they are (the C++ code does not initialise them). *)
Definition InterfaceOneWire (digitalPinToBitMask : Z -> Z) (ioPin activePullupPin : Z)
    (s : State Env Callback) : State Env Callback :=
  let s := setRegisterMask (digitalPinToBitMask ioPin) s in
  let s := pinHigh s in
  pinModeInput s.

(** [InterfaceOneWire::~InterfaceOneWire()] *)
Definition InterfaceOneWire_destroy (s : State Env Callback) : State Env Callback :=
  pinModeInput s.

(** [for(i = 0; i < length; i=i+1) writeByte(bytes[i], pullup);] with
    [unsigned int i, length]: [count] rounds are left, [i] is the index. *)
Fixpoint writeBytesLoop (count : nat) (bytes : list Z) (i : Z) (pullup : bool)
    (s : State Env Callback) : option (State Env Callback) :=
  match count with
  | O => Some s
  | S count' =>
      s ← writeByte (Crc.peek bytes i) pullup s;
      writeBytesLoop count' bytes (i + 1) pullup s
  end.

(** [void writeBytes(uint8_t* bytes, unsigned int length, bool pullup)] *)
Definition writeBytes (bytes : list Z) (length : Z) (pullup : bool)
    (s : State Env Callback) : option (State Env Callback) :=
  writeBytesLoop (Z.to_nat length) bytes 0 pullup s.

(** [for(i = 0; i < length; i=i+1) bytes[i] = readByte();] A store past
    the end of the buffer is outside the C semantics; the model drops it. *)
Fixpoint readBytesLoop (count : nat) (bytes : list Z) (i : Z)
    (s : State Env Callback) : option (list Z * State Env Callback) :=
  match count with
  | O => Some (bytes, s)
  | S count' =>
      '(v, s) ← readByte s;
      readBytesLoop count' (<[Z.to_nat i := v]> bytes) (i + 1) s
  end.

(** [void readBytes(uint8_t* bytes, unsigned int length)]: the buffer
    after the call, and the state. *)
Definition readBytes (bytes : list Z) (length : Z) (s : State Env Callback)
  : option (list Z * State Env Callback) :=
  readBytesLoop (Z.to_nat length) bytes 0 s.

(** [void romCommand_ROMSingle()] *)
Definition romCommand_ROMSingle (s : State Env Callback) : option (State Env Callback) :=
  '(_, s) ← resetAndPresenceDetection s;
  writeByte 0x33 false s.

(** [void romCommand_ROMSelect(uint8_t* romAdress)] *)
Definition romCommand_ROMSelect (romAdress : list Z) (s : State Env Callback)
  : option (State Env Callback) :=
  '(_, s) ← resetAndPresenceDetection s;
  s ← writeByte 0x55 false s;
  writeBytes romAdress 8 false s.

(** [void romCommand_ROMBroadcast()] *)
Definition romCommand_ROMBroadcast (s : State Env Callback) : option (State Env Callback) :=
  '(_, s) ← resetAndPresenceDetection s;
  writeByte 0xCC false s.

(** The driver's mask is kept and the bits of the data direction and
    output registers outside the mask are as before. *)
Definition keepsPort (s s' : State Env Callback) : Prop :=
  ioRegisterMask s' = ioRegisterMask s /\
  Z.land (ioDDR s') (Z.lnot (ioRegisterMask s)) = Z.land (ioDDR s) (Z.lnot (ioRegisterMask s)) /\
  Z.land (ioPORT s') (Z.lnot (ioRegisterMask s)) = Z.land (ioPORT s) (Z.lnot (ioRegisterMask s)).

(** The state a call hands back to code that may be preempted: interrupts
    enabled and the pin floating. *)
Definition released (s : State Env Callback) : Prop :=
  interruptsEnabled s = true /\ lineFloating s.

End Interface.

(** The events of a reset routine that ran to a presence sample [v] after
    [k] low samples, and of one that gave up after [k] low samples. *)
Definition resetEvents (k : nat) (v : Z) : list Event :=
  ([EvNoInterrupts; EvPinModeInput; EvPinLow] ++ lowPolls k ++ [EvDelay 5; EvPinRead 1])
  ++ pulseEvents v.

Definition giveUpEvents (k : nat) : list Event :=
  [EvNoInterrupts; EvPinModeInput; EvPinLow] ++ lowPolls k.

(** The microseconds of delay in a list of events. *)
Definition elapsed (evs : list Event) : Z :=
  fold_right (fun e acc => match e with EvDelay us => us + acc | _ => acc end) 0 evs.

(** The bits the master wrote, read off the events: a write slot ends its
    low pulse with [pinHigh()] right after a delay, shorter than 15 us
    for a 1. *)
Fixpoint writtenBits (evs : list Event) : list bool :=
  match evs with
  | [] => []
  | EvDelay us :: rest =>
      match rest with
      | EvPinHigh :: _ => (us <? 15) :: writtenBits rest
      | _ => writtenBits rest
      end
  | _ :: rest => writtenBits rest
  end.

(** [data] with the byte at index [j] replaced by [x]. *)
Definition corrupt (j : nat) (x : Z) (data : list Z) : list Z := <[j := x]> data.

(** ** Facts on bytes *)

Lemma allBytes_complete (x : Z) : isByte x -> In x allBytes.
Proof.
  intros [Hlo Hhi]. unfold allBytes. apply in_map_iff.
  exists (Z.to_nat x). split; [lia|]. apply in_seq. lia.
Qed.

Lemma byte_forall (P : Z -> bool) :
  forallb P allBytes = true -> forall x, isByte x -> P x = true.
Proof.
  intros H x Hx. rewrite forallb_forall in H. apply H, allBytes_complete, Hx.
Qed.

Lemma isByte_lxor (a b : Z) : isByte a -> isByte b -> isByte (Z.lxor a b).
Proof.
  intros [Ha Ha'] [Hb Hb']. split.
  - apply Z.lxor_nonneg. lia.
  - destruct (Z.eq_dec (Z.lxor a b) 0) as [->|Hne]; [lia|].
    assert (0 <= Z.lxor a b) by (apply Z.lxor_nonneg; lia).
    apply (Z.log2_lt_pow2 _ 8); [lia|].
    pose proof (Z.log2_lxor a b Ha Hb) as Hl.
    assert (Z.log2 a < 8).
    { destruct (Z.eq_dec a 0) as [->|]; [simpl; lia|].
      apply Z.log2_lt_pow2; lia. }
    assert (Z.log2 b < 8).
    { destruct (Z.eq_dec b 0) as [->|]; [simpl; lia|].
      apply Z.log2_lt_pow2; lia. }
    lia.
Qed.

Module CrcFacts.
Import Crc.

(** Eight rounds send a byte to a byte, and only 0 to 0: checked on all
    256 values. *)
Lemma rounds_byte (x : Z) : isByte x -> isByte (Nat.iter 8 crcRound x).
Proof.
  intros Hx.
  pose proof (byte_forall
    (fun x => (0 <=? Nat.iter 8 crcRound x) && (Nat.iter 8 crcRound x <? 256))) as H.
  specialize (H ltac:(vm_compute; reflexivity) x Hx).
  apply andb_true_iff in H as [H1 H2]. unfold isByte. lia.
Qed.

Lemma rounds_zero (x : Z) : isByte x -> Nat.iter 8 crcRound x = 0 <-> x = 0.
Proof.
  intros Hx.
  pose proof (byte_forall
    (fun x => Bool.eqb (Nat.iter 8 crcRound x =? 0) (x =? 0))) as H.
  specialize (H ltac:(vm_compute; reflexivity) x Hx).
  apply Bool.eqb_prop in H.
  rewrite <- Z.eqb_eq, H, Z.eqb_eq. reflexivity.
Qed.

Lemma crcUpdate8_byte (crc data : Z) :
  isByte crc -> isByte data -> isByte (crcUpdate8 crc data).
Proof. intros Hc Hd. apply rounds_byte, isByte_lxor; assumption. Qed.

Lemma crcUpdate8_zero (crc data : Z) :
  isByte crc -> isByte data -> crcUpdate8 crc data = 0 <-> crc = data.
Proof.
  intros Hc Hd. unfold crcUpdate8.
  rewrite rounds_zero by (apply isByte_lxor; assumption).
  apply Z.lxor_eq_0_iff.
Qed.

Lemma fold_crc_byte (d : list Z) (c : Z) :
  Forall isByte d -> isByte c -> isByte (fold_left crcUpdate8 d c).
Proof.
  intros Hd. revert c. induction Hd as [|x d Hx _ IH]; intros c Hc; simpl.
  - assumption.
  - apply IH, crcUpdate8_byte; assumption.
Qed.

Lemma crc8_byte (d : list Z) : Forall isByte d -> isByte (crc8 d).
Proof. intros Hd. apply fold_crc_byte; [assumption | unfold isByte; lia]. Qed.

(** The loop, started at index [i] with [k] bytes to go and no wrap ahead,
    is the fold over the next [k] bytes. *)
Lemma crc8Loop_fold (k : nat) :
  forall (fuel : nat) (lpData : list Z) (dwLen i crc : Z),
    0 <= i -> dwLen = i + Z.of_nat k -> dwLen <= 255 ->
    (k < fuel)%nat ->
    (Z.to_nat dwLen <= length lpData)%nat ->
    crc8Loop fuel lpData dwLen i crc
    = Some (fold_left crcUpdate8 (take k (drop (Z.to_nat i) lpData)) crc).
Proof.
  induction k as [|k IH]; intros fuel lpData dwLen i crc Hi Hlen Hmax Hfuel Hbuf.
  - destruct fuel as [|fuel]; [lia|]. simpl.
    replace (i <? dwLen) with false by (symmetry; apply Z.ltb_ge; lia).
    reflexivity.
  - destruct fuel as [|fuel]; [lia|]. simpl crc8Loop.
    replace (i <? dwLen) with true by (symmetry; apply Z.ltb_lt; lia).
    rewrite Z.mod_small by lia.
    rewrite (IH fuel lpData dwLen (i + 1) _) by lia.
    f_equal.
    destruct (lookup_lt_is_Some_2 lpData (Z.to_nat i)) as [x Hx]; [lia|].
    unfold peek. rewrite Hx. simpl.
    rewrite (drop_S lpData x (Z.to_nat i) Hx). simpl.
    replace (Z.to_nat (i + 1)) with (S (Z.to_nat i)) by lia.
    reflexivity.
Qed.

(** With [dwLen >= 256] the 8-bit counter never reaches [dwLen]. *)
Lemma crc8Loop_diverges (fuel : nat) :
  forall (lpData : list Z) (dwLen i crc : Z),
    256 <= dwLen -> 0 <= i < 256 ->
    crc8Loop fuel lpData dwLen i crc = None.
Proof.
  induction fuel as [|fuel IH]; intros lpData dwLen i crc Hlen Hi; simpl.
  - reflexivity.
  - replace (i <? dwLen) with true by (symmetry; apply Z.ltb_lt; lia).
    apply IH; [assumption|]. apply Z.mod_pos_bound. lia.
Qed.

(** Termination does not depend on what the buffer holds. *)
Lemma crc8Loop_terminates (k : nat) :
  forall (fuel : nat) (lpData : list Z) (dwLen i crc : Z),
    0 <= i -> dwLen = i + Z.of_nat k -> dwLen <= 255 ->
    (k < fuel)%nat ->
    is_Some (crc8Loop fuel lpData dwLen i crc).
Proof.
  induction k as [|k IH]; intros fuel lpData dwLen i crc Hi Hlen Hmax Hfuel.
  - destruct fuel as [|fuel]; [lia|]. simpl.
    replace (i <? dwLen) with false by (symmetry; apply Z.ltb_ge; lia).
    eexists; reflexivity.
  - destruct fuel as [|fuel]; [lia|]. simpl crc8Loop.
    replace (i <? dwLen) with true by (symmetry; apply Z.ltb_lt; lia).
    rewrite Z.mod_small by lia.
    apply IH; lia.
Qed.

End CrcFacts.

(** ** The driver's CRC is the specified one *)

Module CrcSpecFacts.
Import Crc CrcSpec.

Lemma crcRound_spec (c : Z) : crcRound c = specRound c.
Proof.
  unfold crcRound, specRound. rewrite Z.shiftr_div_pow2 by lia.
  change (2 ^ 1) with 2.
  replace (Z.land c 1 =? 0) with (negb (Z.odd c)).
  - rewrite negb_involutive. reflexivity.
  - change 1 with (Z.ones 1). rewrite Z.land_ones by lia. change (2 ^ 1) with 2.
    rewrite Zmod_odd. destruct (Z.odd c); reflexivity.
Qed.

Lemma crcUpdate8_spec (crc data : Z) : crcUpdate8 crc data = specUpdate crc data.
Proof.
  unfold crcUpdate8, specUpdate, Nat.iter. cbn [nat_rect].
  rewrite !crcRound_spec. reflexivity.
Qed.

Lemma crcUpdate8_maxim (crc data : Z) :
  isByte crc -> isByte data -> crcUpdate8 crc data = maximByte crc data.
Proof.
  intros Hc Hd.
  pose proof (byte_forall
    (fun c => forallb (fun d => crcUpdate8 c d =? maximByte c d) allBytes)) as Hall.
  specialize (Hall ltac:(vm_compute; reflexivity) crc Hc).
  rewrite forallb_forall in Hall.
  apply Z.eqb_eq, Hall, allBytes_complete, Hd.
Qed.

Lemma fold_maxim (d : list Z) : forall reg,
  Forall isByte d -> isByte reg ->
  fold_left crcUpdate8 d reg = fold_left maximByte d reg.
Proof.
  induction d as [|x d IH]; intros reg Hd Hreg; [reflexivity|].
  inversion Hd as [|? ? Hx Hd']; subst. cbn [fold_left].
  rewrite <- crcUpdate8_maxim by assumption.
  apply IH; [assumption | apply CrcFacts.crcUpdate8_byte; assumption].
Qed.

Lemma crc8_maxim (d : list Z) : Forall isByte d -> crc8 d = maximCrc d.
Proof. intros Hd. apply fold_maxim; [assumption | unfold isByte; lia]. Qed.

Lemma fold_spec (d : list Z) : forall reg,
  fold_left crcUpdate8 d reg = fold_left specUpdate d reg.
Proof.
  induction d as [|x d IH]; intros reg; [reflexivity|].
  cbn [fold_left]. rewrite crcUpdate8_spec. apply IH.
Qed.

End CrcSpecFacts.

(** ** The driver touches the hardware only where it says so *)

Ltac run :=
  cbv [sameSoft wfAdr logged grows writeBit readBit resetPulse activePullupDisable
       pinRead pinModeInput pinModeOutput pinLow pinHigh
       delayMicroseconds interrupts noInterrupts emit
       setDDR setPORT setInterrupts setAdrCurrent setDiscoveredDevices
       setDiscoverCallback report adrSetBit adrClearBit adrBit replayStep firstSevenBits
       bus ioDDR ioPORT ioRegisterMask interruptsEnabled trace adrCurrent
       discoveredDevices discoverCallback reported fst snd].

Section Frame.

Context {Env : Type} `{!Port Env} {Callback : Type}.
Implicit Types s : State Env Callback.

Lemma sameSoft_refl s : sameSoft s s.
Proof. unfold sameSoft. tauto. Qed.

Lemma sameSoft_trans s1 s2 s3 : sameSoft s1 s2 -> sameSoft s2 s3 -> sameSoft s1 s3.
Proof. unfold sameSoft. intuition congruence. Qed.

Lemma sameSoft_wfAdr s s' : sameSoft s s' -> wfAdr s -> wfAdr s'.
Proof. unfold sameSoft, wfAdr. intros (_ & -> & _). tauto. Qed.

Lemma writeBit_soft v k s : sameSoft s (writeBit v k s).
Proof. destruct s. run. destruct (negb (v =? 0)), k; tauto. Qed.

Lemma readBit_soft s : sameSoft s (snd (readBit s)).
Proof. destruct s. run. tauto. Qed.

Lemma pinModeInput_soft s : sameSoft s (pinModeInput s).
Proof. destruct s. run. tauto. Qed.

Lemma pinModeOutput_soft s : sameSoft s (pinModeOutput s).
Proof. destruct s. run. tauto. Qed.

Lemma pinHigh_soft s : sameSoft s (pinHigh s).
Proof. destruct s. run. tauto. Qed.

Lemma noInterrupts_soft s : sameSoft s (noInterrupts s).
Proof. destruct s. run. tauto. Qed.

Lemma delay_soft us s : sameSoft s (delayMicroseconds us s).
Proof. destruct s. run. tauto. Qed.

Lemma pinRead_soft s : sameSoft s (snd (pinRead s)).
Proof. destruct s. run. tauto. Qed.

Lemma resetPulse_soft s : sameSoft s (snd (resetPulse s)).
Proof. destruct s. run. tauto. Qed.

Lemma writeByteLoop_soft fuel : forall byte mask pullup s s',
  writeByteLoop fuel byte mask pullup s = Some s' -> sameSoft s s'.
Proof.
  induction fuel as [|fuel IH]; intros byte mask pullup s s' H; [discriminate|].
  cbn [writeByteLoop] in H.
  destruct (negb (Z.shiftl mask 1 mod 256 =? 0)).
  - apply IH in H. eapply sameSoft_trans; [apply writeBit_soft | exact H].
  - injection H as <-. apply writeBit_soft.
Qed.

Lemma writeByte_soft byte pullup s s' :
  writeByte byte pullup s = Some s' -> sameSoft s s'.
Proof.
  unfold writeByte. intros H.
  destruct (writeByteLoop 8 byte 1 pullup s) as [s1|] eqn:E; [|discriminate].
  apply writeByteLoop_soft in E. cbn [mbind option_bind] in H.
  destruct pullup; injection H as <-; (eapply sameSoft_trans; [exact E|]).
  - eapply sameSoft_trans; [apply pinHigh_soft | apply pinModeOutput_soft].
  - apply pinModeInput_soft.
Qed.

Lemma searchCommand_soft alarm s s' :
  searchCommand alarm s = Some s' -> sameSoft s s'.
Proof. unfold searchCommand. destruct alarm; apply writeByte_soft. Qed.

Lemma resetWaitHigh_soft fuel : forall r s b s',
  resetWaitHigh fuel r s = Some (b, s') -> sameSoft s s'.
Proof.
  induction fuel as [|fuel IH]; intros r s b s' H; [discriminate|].
  cbn [resetWaitHigh] in H.
  destruct ((r - 1) mod 256 =? 0).
  - injection H as <- <-. apply sameSoft_refl.
  - pose proof (pinRead_soft (delayMicroseconds 5 s)) as Hp.
    pose proof (delay_soft 5 s) as Hd.
    destruct (pinRead (delayMicroseconds 5 s)) as [level s1]. cbn [snd] in Hp.
    assert (sameSoft s s1) as Hs by (eapply sameSoft_trans; eassumption).
    destruct (level =? 0).
    + apply IH in H. eapply sameSoft_trans; eassumption.
    + injection H as <- <-. exact Hs.
Qed.

Lemma reset_soft retry s b s' :
  resetAndPresenceDetectionWith retry s = Some (b, s') -> sameSoft s s'.
Proof.
  unfold resetAndPresenceDetectionWith. intros H.
  destruct (resetWaitHigh 256 (retry mod 256) (pinModeInput (noInterrupts s)))
    as [[idle s1]|] eqn:E; [|discriminate].
  apply resetWaitHigh_soft in E. cbn [mbind option_bind] in H.
  assert (sameSoft s s1) as Hs.
  { eapply sameSoft_trans; [|exact E].
    eapply sameSoft_trans; [apply noInterrupts_soft | apply pinModeInput_soft]. }
  destruct idle.
  - pose proof (resetPulse_soft s1) as Hp.
    destruct (resetPulse s1) as [b1 s2]. injection H as <- <-.
    eapply sameSoft_trans; [exact Hs | exact Hp].
  - injection H as <- <-. exact Hs.
Qed.

Lemma replayStep_soft s i : sameSoft s (replayStep s i).
Proof. destruct s. run. destruct (negb (_ =? 0)); tauto. Qed.

Lemma fold_left_step {A B : Type} (f : A -> B -> A) (x : B) (l : list B) (a : A) :
  fold_left f (x :: l) a = fold_left f l (f a x).
Proof. reflexivity. Qed.

Lemma replay_soft level s : sameSoft s (replay level s).
Proof.
  unfold replay. generalize (map Z.of_nat (seq 0 (Z.to_nat level))) as l.
  intros l. revert s. induction l as [|i l IH]; intros s.
  - apply sameSoft_refl.
  - rewrite fold_left_step.
    eapply sameSoft_trans; [apply replayStep_soft | apply IH].
Qed.

End Frame.

(** ** Reset and presence detection *)

Section Reset.

Context {Env : Type} `{!Port Env} {Callback : Type}.
Implicit Types s : State Env Callback.

Lemma resetWaitHigh_S fuel r s :
  resetWaitHigh (S fuel) r s =
  if (r - 1) mod 256 =? 0 then Some (false, s)
  else
    let '(level, s1) := pinRead (delayMicroseconds 5 s) in
    if level =? 0 then resetWaitHigh fuel ((r - 1) mod 256) s1 else Some (true, s1).
Proof. reflexivity. Qed.

Lemma waitRounds_range r : 1 <= waitRounds r <= 256.
Proof. unfold waitRounds. pose proof (Z.mod_pos_bound (r - 1) 256). lia. Qed.

Lemma waitRounds_step r :
  0 <= r < 256 -> (r - 1) mod 256 <> 0 ->
  waitRounds ((r - 1) mod 256) = waitRounds r - 1.
Proof.
  intros Hr Hne. unfold waitRounds.
  pose proof (Z.mod_pos_bound (r - 1) 256 ltac:(lia)) as Hb.
  rewrite (Z.mod_small ((r - 1) mod 256 - 1) 256) by lia. lia.
Qed.

Lemma lowPolls_S n : lowPolls (S n) = [EvDelay 5; EvPinRead 0] ++ lowPolls n.
Proof. reflexivity. Qed.

(** The idle wait always ends: the 8-bit counter reaches 0 after at most
    256 decrements. *)
Lemma resetWaitHigh_total fuel : forall r s,
  0 <= r < 256 -> waitRounds r <= Z.of_nat fuel ->
  is_Some (resetWaitHigh fuel r s).
Proof.
  induction fuel as [|fuel IH]; intros r s Hr Hfuel.
  - pose proof (waitRounds_range r). lia.
  - rewrite resetWaitHigh_S.
    destruct ((r - 1) mod 256 =? 0) eqn:E; [eexists; reflexivity|].
    apply Z.eqb_neq in E.
    destruct (pinRead (delayMicroseconds 5 s)) as [level s1].
    destruct (level =? 0); [|eexists; reflexivity].
    apply IH.
    + apply Z.mod_pos_bound. lia.
    + rewrite waitRounds_step by assumption. lia.
Qed.

(** What the idle wait does: it only waits and samples. It gives up
    after [waitRounds r - 1] low samples, or stops at the first high one. *)
Lemma resetWaitHigh_spec fuel : forall r s idle s',
  0 <= r < 256 ->
  resetWaitHigh fuel r s = Some (idle, s') ->
  interruptsEnabled s' = interruptsEnabled s /\
  ioDDR s' = ioDDR s /\ ioPORT s' = ioPORT s /\
  if idle
  then exists k, Z.of_nat k < waitRounds r - 1 /\
                 logged s s' (lowPolls k ++ [EvDelay 5; EvPinRead 1])
  else logged s s' (lowPolls (Z.to_nat (waitRounds r - 1))).
Proof.
  induction fuel as [|fuel IH]; intros r s idle s' Hr H; [discriminate|].
  rewrite resetWaitHigh_S in H.
  destruct ((r - 1) mod 256 =? 0) eqn:E.
  - injection H as <- <-. apply Z.eqb_eq in E.
    unfold waitRounds, logged. rewrite E. cbn [Z.add Z.sub Z.to_nat lowPolls repeat concat].
    rewrite app_nil_r. tauto.
  - apply Z.eqb_neq in E.
    pose proof (waitRounds_step r Hr E) as Hw.
    pose proof (Z.mod_pos_bound (r - 1) 256 ltac:(lia)) as Hb.
    pose proof (waitRounds_range ((r - 1) mod 256)) as Hrange.
    destruct s as [b ddr port mask irq t adr n cb rep].
    cbv [pinRead delayMicroseconds emit bus ioRegisterMask] in H.
    destruct (Z.land (portInput (portStep (EvDelay 5) b)) mask =? 0);
      cbn [negb] in H.
    + change (0 =? 0) with true in H. cbv iota in H.
      apply IH in H; [|assumption].
      destruct H as (Hi & Hd & Hp & Hl). cbn [interruptsEnabled ioDDR ioPORT] in *.
      repeat split; try assumption.
      destruct idle.
      * destruct Hl as (k & Hk & Hl). exists (S k). split; [lia|].
        unfold logged in *. cbn [trace] in *. rewrite Hl, lowPolls_S.
        rewrite <- !app_assoc. reflexivity.
      * unfold logged in *. cbn [trace] in *. rewrite Hl.
        replace (Z.to_nat (waitRounds r - 1))
          with (S (Z.to_nat (waitRounds ((r - 1) mod 256) - 1))) by lia.
        rewrite lowPolls_S, <- !app_assoc. reflexivity.
    + change (1 =? 0) with false in H. cbv iota in H.
      injection H as <- <-. cbn [interruptsEnabled ioDDR ioPORT].
      repeat split. exists 0%nat. split; [lia|].
      unfold logged. cbn [trace lowPolls repeat concat app].
      rewrite <- app_assoc. reflexivity.
Qed.

Lemma resetPulse_spec s :
  exists v, fst (resetPulse s) = (v =? 0) /\
            interruptsEnabled (snd (resetPulse s)) = true /\
            logged s (snd (resetPulse s)) (pulseEvents v).
Proof.
  destruct s as [b ddr port mask irq t adr n cb rep]. run.
  eexists. split; [reflexivity|]. split; [reflexivity|].
  unfold pulseEvents. rewrite <- !app_assoc. reflexivity.
Qed.

Lemma resetPrologue_spec s :
  interruptsEnabled (pinModeInput (noInterrupts s)) = false /\
  logged s (pinModeInput (noInterrupts s)) [EvNoInterrupts; EvPinModeInput; EvPinLow].
Proof.
  destruct s as [b ddr port mask irq t adr n cb rep]. run.
  split; [reflexivity|]. rewrite <- !app_assoc. reflexivity.
Qed.

Lemma logged_trans s1 s2 s3 e1 e2 :
  logged s1 s2 e1 -> logged s2 s3 e2 -> logged s1 s3 (e1 ++ e2).
Proof. unfold logged. intros H1 H2. rewrite H2, H1, app_assoc. reflexivity. Qed.

(** The reset routine always returns. *)
Lemma reset_total retry s : is_Some (resetAndPresenceDetectionWith retry s).
Proof.
  unfold resetAndPresenceDetectionWith.
  destruct (resetWaitHigh_total 256 (retry mod 256) (pinModeInput (noInterrupts s)))
    as [[idle s1] E].
  - apply Z.mod_pos_bound. lia.
  - pose proof (waitRounds_range (retry mod 256)). lia.
  - rewrite E. cbn [mbind option_bind]. destruct idle; eexists; reflexivity.
Qed.

(** The two ways out of the reset routine. *)
Lemma reset_paths retry s r s' :
  resetAndPresenceDetectionWith retry s = Some (r, s') ->
  (r = false /\ interruptsEnabled s' = false /\
   logged s s' ([EvNoInterrupts; EvPinModeInput; EvPinLow]
                ++ lowPolls (Z.to_nat (waitRounds (retry mod 256) - 1))))
  \/
  (exists k v,
     Z.of_nat k < waitRounds (retry mod 256) - 1 /\
     r = (v =? 0) /\ interruptsEnabled s' = true /\
     logged s s' (([EvNoInterrupts; EvPinModeInput; EvPinLow]
                   ++ lowPolls k ++ [EvDelay 5; EvPinRead 1]) ++ pulseEvents v)).
Proof.
  unfold resetAndPresenceDetectionWith. intros H.
  destruct (resetWaitHigh 256 (retry mod 256) (pinModeInput (noInterrupts s)))
    as [[idle s1]|] eqn:E; [|discriminate].
  cbn [mbind option_bind] in H.
  apply resetWaitHigh_spec in E; [|apply Z.mod_pos_bound; lia].
  destruct E as (Hi & _ & _ & Hl).
  destruct (resetPrologue_spec s) as (Hi0 & Hl0).
  destruct idle.
  - right. destruct Hl as (k & Hk & Hl).
    destruct (resetPulse_spec s1) as (v & Hv & Hi1 & Hl1).
    destruct (resetPulse s1) as [r1 s2]. cbn [fst snd] in *.
    injection H as <- <-. exists k, v. repeat split; try assumption.
    eapply logged_trans; [|exact Hl1]. eapply logged_trans; eassumption.
  - left. injection H as <- <-. repeat split.
    + congruence.
    + eapply logged_trans; eassumption.
Qed.

End Reset.

(** ** The bus search *)

Section Search.

Context {Env : Type} `{!Port Env} {Callback : Type}.
Implicit Types s : State Env Callback.

Lemma isByte_land_lnot x m : isByte x -> isByte (Z.land x (Z.lnot m)).
Proof.
  intros [Hlo Hhi]. rewrite <- Z.sub_land_same_l.
  assert (0 <= Z.land x m) by (apply Z.land_nonneg; lia).
  assert (0 <= Z.land x (Z.lnot m)) as H0 by (apply Z.land_nonneg; lia).
  rewrite <- Z.sub_land_same_l in H0. unfold isByte. lia.
Qed.

Lemma isByte_lor a b : isByte a -> isByte b -> isByte (Z.lor a b).
Proof.
  intros [Ha Ha'] [Hb Hb']. split.
  - apply Z.lor_nonneg. lia.
  - destruct (Z.eq_dec (Z.lor a b) 0) as [->|Hne]; [lia|].
    assert (0 <= Z.lor a b) by (apply Z.lor_nonneg; lia).
    apply (Z.log2_lt_pow2 _ 8); [lia|].
    rewrite Z.log2_lor by lia.
    assert (Z.log2 a < 8).
    { destruct (Z.eq_dec a 0) as [->|]; [simpl; lia|].
      apply Z.log2_lt_pow2; lia. }
    assert (Z.log2 b < 8).
    { destruct (Z.eq_dec b 0) as [->|]; [simpl; lia|].
      apply Z.log2_lt_pow2; lia. }
    lia.
Qed.

Lemma isByte_bit level : isByte (Z.shiftl 1 (level mod 8)).
Proof.
  pose proof (Z.mod_pos_bound level 8 ltac:(lia)) as Hb.
  rewrite Z.shiftl_1_l. unfold isByte. split; [apply Z.pow_nonneg; lia|].
  change 256 with (2 ^ 8). apply Z.pow_lt_mono_r; lia.
Qed.

Lemma peek_byte l i : Forall isByte l -> isByte (Crc.peek l i).
Proof.
  intros Hl. unfold Crc.peek.
  destruct (l !! Z.to_nat i) as [x|] eqn:E; cbn [default].
  - rewrite Forall_forall in Hl. apply Hl.
    apply list_elem_of_In, list_elem_of_lookup. eauto.
  - unfold isByte. lia.
Qed.

Lemma grows_refl s : grows s s.
Proof.
  unfold grows. split; [reflexivity|]. split; [reflexivity|].
  exists []. rewrite app_nil_r.
  split; [reflexivity|]. intros Hwf. split; [assumption | constructor].
Qed.

Lemma grows_trans s1 s2 s3 : grows s1 s2 -> grows s2 s3 -> grows s1 s3.
Proof.
  unfold grows. intros (Hd1 & Hc1 & n1 & Hr1 & Hw1) (Hd2 & Hc2 & n2 & Hr2 & Hw2).
  split; [congruence|]. split; [congruence|]. exists (n1 ++ n2). split.
  - rewrite Hr2, Hr1, app_assoc. reflexivity.
  - intros Hwf. destruct (Hw1 Hwf) as [Hwf2 Hv1].
    destruct (Hw2 Hwf2) as [Hwf3 Hv2]. split; [assumption|].
    apply Forall_app; split; assumption.
Qed.

Lemma sameSoft_grows s s' : sameSoft s s' -> grows s s'.
Proof.
  intros Hs. pose proof (sameSoft_wfAdr s s' Hs) as Hwf.
  destruct Hs as (_ & _ & Hd & Hc & Hr).
  split; [assumption|]. split; [assumption|]. exists []. rewrite app_nil_r.
  split; [assumption|]. intros H. split; [auto | constructor].
Qed.

Lemma adrClearBit_grows level s : grows s (adrClearBit level s).
Proof.
  destruct s as [b ddr port mask irq t adr n cb rep]. run.
  split; [reflexivity|]. split; [reflexivity|].
  exists []. rewrite app_nil_r. split; [reflexivity|].
  intros [Hlen Hbytes]. split; [|constructor]. split.
  - rewrite length_insert. assumption.
  - apply Forall_insert; [assumption|].
    apply isByte_land_lnot, peek_byte, Hbytes.
Qed.

Lemma adrSetBit_grows level s : grows s (adrSetBit level s).
Proof.
  destruct s as [b ddr port mask irq t adr n cb rep]. run.
  split; [reflexivity|]. split; [reflexivity|].
  exists []. rewrite app_nil_r. split; [reflexivity|].
  intros [Hlen Hbytes]. split; [|constructor]. split.
  - rewrite length_insert. assumption.
  - apply Forall_insert; [assumption|].
    apply isByte_lor; [apply peek_byte, Hbytes | apply isByte_bit].
Qed.

(** The check of an 8-byte buffer is the fold over its first 7 bytes
    followed by the last one. *)
Lemma check_fold (id : list Z) (c : Z) :
  length id = 8%nat ->
  Crc.crc8CheckIButton 8 id (8 - 1) c
  = Some (Crc.crcUpdate8 (Crc.crc8 (take 7 id)) c =? 0).
Proof.
  intros Hlen. unfold Crc.crc8CheckIButton.
  rewrite (CrcFacts.crc8Loop_fold 7 8 id (8 - 1) 0 0) by (cbn; lia).
  cbn [Z.to_nat drop mbind option_bind]. reflexivity.
Qed.

Lemma check_validRom (id : list Z) :
  length id = 8%nat -> Forall isByte id ->
  Crc.crc8CheckIButton 8 id (8 - 1) (Crc.peek id (8 - 1)) = Some true ->
  validRom id.
Proof.
  intros Hlen Hbytes H. rewrite check_fold in H by assumption.
  apply (inj Some) in H. apply Z.eqb_eq in H.
  change (8 - 1) with 7 in H.
  assert (isByte (Crc.crc8 (take 7 id))) as Hb1
    by apply CrcFacts.crc8_byte, Forall_take, Hbytes.
  assert (isByte (Crc.peek id 7)) as Hb2 by apply peek_byte, Hbytes.
  apply (proj1 (CrcFacts.crcUpdate8_zero _ _ Hb1 Hb2)) in H.
  split; [assumption|]. split; [assumption|]. symmetry. exact H.
Qed.

Lemma report_grows s :
  Crc.crc8CheckIButton 8 (adrCurrent s) (8 - 1) (Crc.peek (adrCurrent s) (8 - 1)) = Some true ->
  grows s (report (adrCurrent s) s).
Proof.
  destruct s as [b ddr port mask irq t adr n cb rep]. run. intros H.
  split; [reflexivity|]. split; [reflexivity|].
  exists [adr]. split; [reflexivity|].
  intros [Hlen Hbytes]. split; [split; assumption|].
  constructor; [|constructor]. apply check_validRom; assumption.
Qed.

Lemma discoveryDevicesRecursive_S fuel level alarmSearch s :
  discoveryDevicesRecursive (S fuel) level alarmSearch s =
  if level =? 8 * 8 then
    valid ← Crc.crc8CheckIButton 8 (adrCurrent s) (8 - 1) (Crc.peek (adrCurrent s) (8 - 1));
    if (valid : bool) then invokeCallback s else Some s
  else
    let '(a, s) := readBit s in
    let '(b, s) := readBit s in
    if (a =? 1) && (b =? 1) then Some s
    else if (a =? 0) && (b =? 1) then
      discoveryDevicesRecursive fuel ((level + 1) mod 256) alarmSearch
        (writeBit 0 false (adrClearBit level s))
    else if (a =? 1) && (b =? 0) then
      discoveryDevicesRecursive fuel ((level + 1) mod 256) alarmSearch
        (writeBit 1 false (adrSetBit level s))
    else
      s ← discoveryDevicesRecursive fuel ((level + 1) mod 256) alarmSearch
             (writeBit 0 false (adrClearBit level s));
      '(present, s) ← resetAndPresenceDetection s;
      if negb present then Some s
      else
        s ← searchCommand alarmSearch s;
        let s := replay level s in
        let s := adrSetBit level s in
        let '(_, s) := readBit s in
        let '(_, s) := readBit s in
        let s := writeBit 1 false s in
        discoveryDevicesRecursive fuel ((level + 1) mod 256) alarmSearch s.
Proof. reflexivity. Qed.

Lemma readBit_grows s : grows s (snd (readBit s)).
Proof. apply sameSoft_grows, readBit_soft. Qed.

Lemma writeBit_grows v k s : grows s (writeBit v k s).
Proof. apply sameSoft_grows, writeBit_soft. Qed.

Lemma zeroStep_grows level s : grows s (writeBit 0 false (adrClearBit level s)).
Proof. eapply grows_trans; [apply adrClearBit_grows | apply writeBit_grows]. Qed.

Lemma oneStep_grows level s : grows s (writeBit 1 false (adrSetBit level s)).
Proof. eapply grows_trans; [apply adrSetBit_grows | apply writeBit_grows]. Qed.

(** The steps of the 1 branch after the search command was sent again. *)
Lemma oneBranchSetup_grows level s :
  grows s (writeBit 1 false
             (snd (readBit (snd (readBit (adrSetBit level (replay level s))))))).
Proof.
  eapply grows_trans; [apply sameSoft_grows, replay_soft|].
  eapply grows_trans; [apply adrSetBit_grows|].
  eapply grows_trans; [apply readBit_grows|].
  eapply grows_trans; [apply readBit_grows|].
  apply writeBit_grows.
Qed.

(** The search keeps the callback pointer, only adds to the callback log,
    and adds only identifiers that passed the CRC check. *)
Lemma discoveryDevicesRecursive_grows fuel : forall level alarmSearch s s',
  discoveryDevicesRecursive fuel level alarmSearch s = Some s' -> grows s s'.
Proof.
  induction fuel as [|fuel IH]; intros level alarmSearch s s' H; [discriminate|].
  rewrite discoveryDevicesRecursive_S in H.
  destruct (level =? 8 * 8).
  - destruct (Crc.crc8CheckIButton 8 (adrCurrent s) (8 - 1)
                (Crc.peek (adrCurrent s) (8 - 1))) as [valid|] eqn:E;
      [|discriminate].
    cbn [mbind option_bind] in H. destruct valid.
    + unfold invokeCallback in H.
      destruct (discoverCallback s); [|discriminate].
      injection H as <-. apply report_grows, E.
    + injection H as <-. apply grows_refl.
  - pose proof (readBit_grows s) as Ha.
    destruct (readBit s) as [a s1]. cbn [snd] in Ha.
    pose proof (readBit_grows s1) as Hb.
    destruct (readBit s1) as [b s2]. cbn [snd] in Hb.
    assert (grows s s2) as H2 by (eapply grows_trans; eassumption).
    clear Ha Hb.
    destruct ((a =? 1) && (b =? 1)).
    { injection H as <-. exact H2. }
    destruct ((a =? 0) && (b =? 1)).
    { apply IH in H. eapply grows_trans; [exact H2|].
      eapply grows_trans; [apply zeroStep_grows | exact H]. }
    destruct ((a =? 1) && (b =? 0)).
    { apply IH in H. eapply grows_trans; [exact H2|].
      eapply grows_trans; [apply oneStep_grows | exact H]. }
    destruct (discoveryDevicesRecursive fuel ((level + 1) mod 256) alarmSearch
                (writeBit 0 false (adrClearBit level s2))) as [s3|] eqn:E0;
      [|discriminate].
    apply IH in E0. cbn [mbind option_bind] in H.
    assert (grows s s3) as H3.
    { eapply grows_trans; [exact H2|].
      eapply grows_trans; [apply zeroStep_grows | exact E0]. }
    destruct (resetAndPresenceDetection s3) as [[present s4]|] eqn:Er;
      [|discriminate].
    apply reset_soft, sameSoft_grows in Er. cbn [mbind option_bind] in H.
    assert (grows s s4) as H4 by (eapply grows_trans; eassumption).
    destruct present; cbn [negb] in H.
    + destruct (searchCommand alarmSearch s4) as [s5|] eqn:Ec; [|discriminate].
      apply searchCommand_soft, sameSoft_grows in Ec. cbn [mbind option_bind] in H.
      pose proof (oneBranchSetup_grows level s5) as H6.
      destruct (readBit (adrSetBit level (replay level s5))) as [x s6].
      cbn [snd] in H6.
      destruct (readBit s6) as [y s7]. cbn [snd] in H6.
      apply IH in H.
      eapply grows_trans; [exact H4|]. eapply grows_trans; [exact Ec|].
      eapply grows_trans; eassumption.
    + injection H as <-. exact H4.
Qed.

End Search.

(** ** Byte transport *)

Section Transport.

Context {Env : Type} `{!Port Env} {Callback : Type}.
Implicit Types s : State Env Callback.

(** The loop of [writeByte] makes eight calls of [writeBit], for the
    masks 0x01 .. 0x80 in this order, and passes [pullup] to the last
    one only. *)
Lemma writeByteLoop_unroll byte pullup s :
  writeByteLoop 8 byte 0x01 pullup s
  = Some (writeBit (Z.land byte 0x80) pullup (firstSevenBits byte s)).
Proof. reflexivity. Qed.

Lemma writeByte_unroll byte pullup s :
  writeByte byte pullup s
  = Some (if pullup
          then pinModeOutput (pinHigh (writeBit (Z.land byte 0x80) true (firstSevenBits byte s)))
          else pinModeInput (writeBit (Z.land byte 0x80) false (firstSevenBits byte s))).
Proof.
  unfold writeByte. rewrite writeByteLoop_unroll. cbn [mbind option_bind].
  destruct pullup; reflexivity.
Qed.

Lemma writeByte_total byte pullup s : is_Some (writeByte byte pullup s).
Proof. rewrite writeByte_unroll. eexists; reflexivity. Qed.

Lemma searchCommand_total alarm s : is_Some (searchCommand alarm s).
Proof. unfold searchCommand. destruct alarm; apply writeByte_total. Qed.

Lemma writeBit_logged v k s : logged s (writeBit v k s) (slotEvents v k).
Proof.
  destruct s as [b ddr port mask irq t adr n cb rep]. unfold slotEvents. run.
  destruct (negb (v =? 0)), k; cbn [negb app]; rewrite <- ?app_assoc; reflexivity.
Qed.

Lemma pinModeInput_logged s : logged s (pinModeInput s) [EvPinModeInput; EvPinLow].
Proof.
  destruct s as [b ddr port mask irq t adr n cb rep]. run.
  rewrite <- ?app_assoc. reflexivity.
Qed.

Lemma logged_refl s : logged s s [].
Proof. unfold logged. rewrite app_nil_r. reflexivity. Qed.

(** In every environment a byte goes out least significant bit first. *)
Lemma writeByte_logged byte s :
  exists s', writeByte byte false s = Some s' /\ logged s s' (byteEvents byte).
Proof.
  rewrite writeByte_unroll. eexists. split; [reflexivity|].
  unfold byteEvents, firstSevenBits. cbn [fold_left map concat].
  rewrite !app_nil_r, !app_assoc.
  eapply logged_trans; [|apply pinModeInput_logged].
  repeat (eapply logged_trans; [|apply writeBit_logged]).
  apply writeBit_logged.
Qed.

Lemma readByteLoop_S fuel res mask s :
  readByteLoop (S fuel) res mask s =
  let '(bit, s1) := readBit s in
  if negb (Z.shiftl mask 1 mod 256 =? 0)
  then readByteLoop fuel (if negb (bit =? 0) then Z.lor res mask else res)
                    (Z.shiftl mask 1 mod 256) s1
  else Some (if negb (bit =? 0) then Z.lor res mask else res, s1).
Proof. reflexivity. Qed.

(** In every environment [readByte] makes eight read slots and puts the
    first sampled bit at the least significant position. *)
Lemma readByte_assemble s :
  readByte s = Some (assemble (fst (readBits 8 s)), snd (readBits 8 s)).
Proof.
  unfold readByte. cbn [readBits].
  do 8 (rewrite readByteLoop_S;
        match goal with |- context [readBit ?x] => destruct (readBit x) as [? ?] end;
        match goal with |- context [Z.shiftl ?m 1 mod 256] =>
          let v := eval vm_compute in (Z.shiftl m 1 mod 256) in
          change (Z.shiftl m 1 mod 256) with v end;
        match goal with |- context [negb (?m =? 0)] =>
          let v := eval vm_compute in (negb (m =? 0)) in
          change (negb (m =? 0)) with v end; cbv iota).
  cbn [fst snd]. unfold assemble. cbn [fold_right].
  repeat match goal with
         | |- context [negb (?z =? 0)] => destruct (negb (z =? 0))
         end; reflexivity.
Qed.

End Transport.

(** ** The search returns *)

Section SearchTotal.

Context {Env : Type} `{!Port Env} {Callback : Type}.
Implicit Types s : State Env Callback.

Lemma check_total (lpData : list Z) (c : Z) :
  is_Some (Crc.crc8CheckIButton 8 lpData (8 - 1) c).
Proof.
  unfold Crc.crc8CheckIButton.
  destruct (CrcFacts.crc8Loop_terminates 7 8 lpData (8 - 1) 0 0) as [crc E];
    try (cbn; lia).
  rewrite E. cbn [mbind option_bind]. eexists; reflexivity.
Qed.

Lemma grows_callback s s' :
  grows s s' -> discoverCallback s <> None -> discoverCallback s' <> None.
Proof. intros (_ & Hc & _) H. rewrite Hc. exact H. Qed.

(** From depth [level] the recursion needs [65 - level] nested calls. *)
Lemma discoveryDevicesRecursive_total fuel : forall level alarmSearch s,
  0 <= level <= 64 -> 65 - level <= Z.of_nat fuel ->
  discoverCallback s <> None ->
  is_Some (discoveryDevicesRecursive fuel level alarmSearch s).
Proof.
  induction fuel as [|fuel IH]; intros level alarmSearch s Hlevel Hfuel Hcb; [lia|].
  rewrite discoveryDevicesRecursive_S. change (8 * 8) with 64.
  destruct (level =? 64) eqn:El.
  - destruct (check_total (adrCurrent s) (Crc.peek (adrCurrent s) (8 - 1)))
      as [valid E].
    rewrite E. cbn [mbind option_bind]. destruct valid; [|eexists; reflexivity].
    unfold invokeCallback. destruct (discoverCallback s); [eexists; reflexivity|].
    contradiction.
  - apply Z.eqb_neq in El.
    rewrite (Z.mod_small (level + 1) 256) by lia.
    pose proof (readBit_grows s) as Ha.
    destruct (readBit s) as [a s1]. cbn [snd] in Ha.
    pose proof (readBit_grows s1) as Hb.
    destruct (readBit s1) as [b s2]. cbn [snd] in Hb.
    assert (discoverCallback s2 <> None) as Hcb2
      by (eapply grows_callback; [exact Hb|]; eapply grows_callback; eassumption).
    clear Ha Hb.
    destruct ((a =? 1) && (b =? 1)); [eexists; reflexivity|].
    destruct ((a =? 0) && (b =? 1)).
    { apply IH; [lia | lia |].
      eapply grows_callback; [apply zeroStep_grows | exact Hcb2]. }
    destruct ((a =? 1) && (b =? 0)).
    { apply IH; [lia | lia |].
      eapply grows_callback; [apply oneStep_grows | exact Hcb2]. }
    destruct (IH (level + 1) alarmSearch (writeBit 0 false (adrClearBit level s2)))
      as [s3 E0]; [lia | lia | |].
    { eapply grows_callback; [apply zeroStep_grows | exact Hcb2]. }
    rewrite E0. cbn [mbind option_bind].
    assert (discoverCallback s3 <> None) as Hcb3.
    { eapply grows_callback; [eapply discoveryDevicesRecursive_grows, E0|].
      eapply grows_callback; [apply zeroStep_grows | exact Hcb2]. }
    destruct (reset_total ONEWIRE_RETRY_RESETWAITHIGH s3) as [[present s4] Er].
    fold (resetAndPresenceDetection s3) in Er. rewrite Er.
    cbn [mbind option_bind].
    assert (discoverCallback s4 <> None) as Hcb4.
    { eapply grows_callback; [eapply sameSoft_grows, reset_soft, Er | exact Hcb3]. }
    destruct present; cbn [negb]; [|eexists; reflexivity].
    destruct (searchCommand_total alarmSearch s4) as [s5 Ec].
    rewrite Ec. cbn [mbind option_bind].
    pose proof (oneBranchSetup_grows level s5) as H6.
    destruct (readBit (adrSetBit level (replay level s5))) as [x s6].
    cbn [snd] in H6.
    destruct (readBit s6) as [y s7]. cbn [snd] in H6.
    apply IH; [lia | lia |].
    eapply grows_callback; [exact H6|].
    eapply grows_callback; [eapply sameSoft_grows, searchCommand_soft, Ec | exact Hcb4].
Qed.



Lemma discoverDevices_unfold callback alarmSearch s :
  discoverDevices callback alarmSearch s =
  match callback with
  | None => Some (Returned 0, setDiscoverCallback None (setDiscoveredDevices 0 s))
  | Some _ =>
      '(present, s) ← resetAndPresenceDetection
          (clearAdrCurrent (setDiscoverCallback callback (setDiscoveredDevices 0 s)));
      if negb present then Some (Returned 0, s)
      else
        s ← searchCommand alarmSearch s;
        s ← discoveryDevicesRecursive 65 0 alarmSearch s;
        Some (NoReturnValue, s)
  end.
Proof. destruct callback; reflexivity. Qed.



End SearchTotal.

(** ** The CRC-8 validator *)

(** C3. [crcUpdate8] is the update the specification words (XOR the byte
    in, then 8 rounds of shift right, XORing 0x8C when the low bit was
    set) and, on bytes, the CRC-8/Maxim shift register; it gives the
    catalogue's check value 0xA1. For every byte sequence [d], of any
    length, appending the CRC-8/Maxim checksum of [d] makes the fold 0.
    [crc8CheckIButton d n c] is the specified check, and answers true
    exactly when [c] is the checksum of the [n] data bytes, as long as
    [n <= 255]. For the 256 bytes 0x00 .. 0xFF with their checksum 0x18
    the specified check says valid, and the call never returns: the 8-bit
    loop counter cannot reach 256. *)
Theorem crc8CheckIButton_checksum_law_fails_at_256_bytes :
  (forall crc data, Crc.crcUpdate8 crc data = CrcSpec.specUpdate crc data)
  /\ (forall reg byte, isByte reg -> isByte byte ->
        Crc.crcUpdate8 reg byte = CrcSpec.maximByte reg byte)
  /\ Crc.crc8 CrcSpec.checkMessage = 0xA1
  /\ (forall d, Forall isByte d ->
        fold_left Crc.crcUpdate8 (d ++ [CrcSpec.maximCrc d]) 0 = 0)
  /\ (forall (fuel n : nat) (d : list Z) (c : Z),
        (n <= length d)%nat -> Z.of_nat n <= 255 -> (n < fuel)%nat ->
        Forall isByte d -> isByte c ->
        Crc.crc8CheckIButton fuel d (Z.of_nat n) c = Some (CrcSpec.specValid n d c)
        /\ (Crc.crc8CheckIButton fuel d (Z.of_nat n) c = Some true
            <-> c = CrcSpec.maximCrc (take n d)))
  /\ (length allBytes = 256%nat
      /\ Forall isByte allBytes
      /\ CrcSpec.maximCrc allBytes = 0x18
      /\ CrcSpec.specValid 256 allBytes 0x18 = true
      /\ forall fuel, Crc.crc8CheckIButton fuel allBytes 256 0x18 = None).
Proof.
  split; [exact CrcSpecFacts.crcUpdate8_spec|].
  split; [exact CrcSpecFacts.crcUpdate8_maxim|].
  split; [vm_compute; reflexivity|].
  split; [|split].
  - intros d Hd. rewrite <- CrcSpecFacts.crc8_maxim by assumption.
    rewrite fold_left_app. cbn [fold_left].
    apply CrcFacts.crcUpdate8_zero; [| |reflexivity];
      apply CrcFacts.crc8_byte; assumption.
  - intros fuel n d c Hn Hmax Hfuel Hd Hc.
    assert (Forall isByte (take n d)) as Ht by apply Forall_take, Hd.
    assert (isByte (Crc.crc8 (take n d))) as Hcrc by apply CrcFacts.crc8_byte, Ht.
    assert (Crc.crc8CheckIButton fuel d (Z.of_nat n) c
            = Some (Crc.crcUpdate8 (Crc.crc8 (take n d)) c =? 0)) as Heq.
    { unfold Crc.crc8CheckIButton.
      rewrite (CrcFacts.crc8Loop_fold n fuel d (Z.of_nat n) 0 0) by lia.
      reflexivity. }
    split.
    + rewrite Heq. unfold CrcSpec.specValid.
      rewrite <- CrcSpecFacts.fold_spec, fold_left_app. reflexivity.
    + rewrite Heq, <- CrcSpecFacts.crc8_maxim by assumption. split.
      * intros H. apply (inj Some) in H. apply Z.eqb_eq in H.
        symmetry. exact (proj1 (CrcFacts.crcUpdate8_zero _ _ Hcrc Hc) H).
      * intros ->. f_equal. apply Z.eqb_eq.
        exact (proj2 (CrcFacts.crcUpdate8_zero _ _ Hcrc Hcrc) eq_refl).
  - split; [reflexivity|]. split.
    { apply List.Forall_forall. intros x Hx. unfold allBytes in Hx.
      apply in_map_iff in Hx as (k & <- & Hk).
      apply in_seq in Hk. unfold isByte. lia. }
    split; [vm_compute; reflexivity|]. split; [vm_compute; reflexivity|].
    intros fuel. unfold Crc.crc8CheckIButton.
    rewrite CrcFacts.crc8Loop_diverges by lia. reflexivity.
Qed.

Lemma crc8CheckIButton_checksum_law_fails_at_256_bytes_witness :
  Crc.crc8CheckIButton 8 Scenario.romA 7 0xA2
    = Some (CrcSpec.specValid 7 Scenario.romA 0xA2)
  /\ (Crc.crc8CheckIButton 8 Scenario.romA 7 0xA2 = Some true
      <-> 0xA2 = CrcSpec.maximCrc (take 7 Scenario.romA)).
Proof.
  apply (proj1 (proj2 (proj2 (proj2 (proj2
           crc8CheckIButton_checksum_law_fails_at_256_bytes)))) 8%nat 7%nat
           Scenario.romA 0xA2).
  - simpl. lia.
  - lia.
  - lia.
  - unfold Scenario.romA, isByte. repeat constructor; lia.
  - unfold isByte. lia.
Defined.

(** C10. The loop of [crc8CheckIButton] counts with an 8-bit counter up
    to [dwLen]: for [dwLen <= 255] the call returns (after [dwLen]
    rounds), for [dwLen >= 256] the counter wraps before it reaches
    [dwLen] and no amount of running gets the call out of the loop. *)
Theorem crc8CheckIButton_returns_iff_length_fits_counter
    (lpData : list Z) (dwLen crcToCheck : Z) :
  (0 <= dwLen <= 255 ->
   exists valid,
     Crc.crc8CheckIButton (S (Z.to_nat dwLen)) lpData dwLen crcToCheck = Some valid)
  /\ (256 <= dwLen ->
      forall fuel, Crc.crc8CheckIButton fuel lpData dwLen crcToCheck = None).
Proof.
  split.
  - intros Hlen. unfold Crc.crc8CheckIButton.
    destruct (CrcFacts.crc8Loop_terminates (Z.to_nat dwLen) (S (Z.to_nat dwLen))
                lpData dwLen 0 0) as [crc E]; try lia.
    rewrite E. eexists. reflexivity.
  - intros Hlen fuel. unfold Crc.crc8CheckIButton.
    rewrite CrcFacts.crc8Loop_diverges by lia. reflexivity.
Qed.

Lemma crc8CheckIButton_returns_iff_length_fits_counter_witness :
  (exists valid, Crc.crc8CheckIButton 8 Scenario.romA 7 0xA2 = Some valid)
  /\ (forall fuel, Crc.crc8CheckIButton fuel Scenario.romA 256 0xA2 = None).
Proof.
  split.
  - apply (proj1 (crc8CheckIButton_returns_iff_length_fits_counter Scenario.romA 7 0xA2)).
    lia.
  - apply (proj2 (crc8CheckIButton_returns_iff_length_fits_counter Scenario.romA 256 0xA2)).
    lia.
Defined.

(** ** Bytes on the wire *)

(** C6. [writeByte] sends the bits of its argument least significant
    first (eight write slots for the masks 0x01 .. 0x80, on every bus),
    [readByte] puts the first bit it samples at the least significant
    position (on every bus), and on the loopback device, which records
    the eight written bits and plays them back, reading after writing
    [byte] returns [byte], for each of the 256 bytes. *)
Theorem writeByte_then_readByte_on_loopback (byte : Z) :
  isByte byte ->
  (forall (Env Callback : Type) (P : Port Env) (s : State Env Callback),
     exists s', writeByte byte false s = Some s' /\ logged s s' (byteEvents byte))
  /\ (forall (Env Callback : Type) (P : Port Env) (s : State Env Callback),
        readByte s = Some (assemble (fst (readBits 8 s)), snd (readBits 8 s)))
  /\ exists s1 s2,
       writeByte byte false Loopback.start = Some s1
       /\ Loopback.bits (bus s1) = lsbFirst byte
       /\ readByte s1 = Some (byte, s2).
Proof.
  intros Hbyte. split; [|split].
  - intros Env Callback P s. apply writeByte_logged.
  - intros Env Callback P s. apply readByte_assemble.
  - pose proof (byte_forall loopbackCheck ltac:(vm_compute; reflexivity) byte Hbyte)
      as Hcheck.
    unfold loopbackCheck in Hcheck.
    destruct (writeByte byte false Loopback.start) as [s1|] eqn:Ew; [|discriminate].
    apply andb_true_iff in Hcheck as [Hbits Hread].
    apply bool_decide_eq_true in Hbits.
    destruct (readByte s1) as [[r s2]|] eqn:Er; [|discriminate].
    apply Z.eqb_eq in Hread. subst r.
    exists s1, s2. split; [reflexivity|]. split; [exact Hbits | exact Er].
Qed.

Lemma writeByte_then_readByte_on_loopback_witness :
  exists s1 s2,
    writeByte 0xA5 false Loopback.start = Some s1
    /\ Loopback.bits (bus s1) = [true; false; true; false; false; true; false; true]
    /\ readByte s1 = Some (0xA5, s2).
Proof.
  apply (writeByte_then_readByte_on_loopback 0xA5). unfold isByte. lia.
Defined.

(** ** The held write *)

Section Pullup.

Context {Env : Type} `{!Port Env} {Callback : Type}.
Implicit Types s : State Env Callback.

Lemma land_lor_same x m : Z.land (Z.lor x m) m = m.
Proof.
  apply Z.bits_inj'. intros n Hn.
  rewrite Z.land_spec, Z.lor_spec.
  destruct (Z.testbit x n), (Z.testbit m n); reflexivity.
Qed.

Lemma land_clear_same x m : Z.land (Z.land x (Z.lnot m)) m = 0.
Proof.
  rewrite <- Z.land_assoc, (Z.land_comm (Z.lnot m) m), Z.land_lnot_diag.
  apply Z.land_0_r.
Qed.

Lemma driveHigh_spec s :
  ioRegisterMask s <> 0 -> lineDrivenHigh (pinModeOutput (pinHigh s)).
Proof.
  destruct s as [b ddr port mask irq t adr n cb rep].
  unfold lineDrivenHigh. run. intros Hmask.
  rewrite !land_lor_same. split; assumption.
Qed.

Lemma heldWrite_interrupts v s :
  interruptsEnabled (pinModeOutput (pinHigh (writeBit v true s))) = false.
Proof.
  destruct s as [b ddr port mask irq t adr n cb rep]. run.
  destruct (negb (v =? 0)); reflexivity.
Qed.

Lemma heldWrite_logged v s :
  logged s (pinModeOutput (pinHigh (writeBit v true s)))
         (slotEvents v true ++ [EvPinHigh; EvPinModeOutput]).
Proof.
  destruct s as [b ddr port mask irq t adr n cb rep]. unfold slotEvents. run.
  destruct (negb (v =? 0)); cbn [negb app]; rewrite <- ?app_assoc; reflexivity.
Qed.

Lemma activePullupDisable_spec s :
  lineFloating (activePullupDisable s)
  /\ interruptsEnabled (activePullupDisable s) = true.
Proof.
  destruct s as [b ddr port mask irq t adr n cb rep].
  unfold lineFloating. run.
  rewrite !land_clear_same. repeat split.
Qed.

(** C8. After [writeByte byte true] the pin drives the line high and the
    interrupts are disabled: the write slot of the last bit (mask 0x80)
    is the only one that is passed the hold flag, it does not re-enable
    the interrupts, and nothing after it in [writeByte] does or releases
    the pin. [activePullupDisable] puts the pin back to floating input
    and enables the interrupts, whatever the state it is called in. *)
Theorem writeByte_pullup_holds_line_and_interrupts (byte : Z) s :
  ioRegisterMask s <> 0 ->
  (forall pullup,
     writeByteLoop 8 byte 0x01 pullup s
     = Some (writeBit (Z.land byte 0x80) pullup (firstSevenBits byte s)))
  /\ exists s',
       writeByte byte true s = Some s'
       /\ lineDrivenHigh s'
       /\ interruptsEnabled s' = false
       /\ logged (firstSevenBits byte s) s'
                 (slotEvents (Z.land byte 0x80) true ++ [EvPinHigh; EvPinModeOutput])
       /\ ~ In EvInterrupts
              (slotEvents (Z.land byte 0x80) true ++ [EvPinHigh; EvPinModeOutput])
       /\ lineFloating (activePullupDisable s')
       /\ interruptsEnabled (activePullupDisable s') = true
       /\ forall t : State Env Callback,
            lineFloating (activePullupDisable t)
            /\ interruptsEnabled (activePullupDisable t) = true.
Proof.
  intros Hmask. split; [intros pullup; apply writeByteLoop_unroll|].
  eexists. split; [apply writeByte_unroll|]. cbv iota.
  pose proof (writeByteLoop_soft 8 byte 0x01 true s _ (writeByteLoop_unroll byte true s))
    as (Hm & _).
  split; [apply driveHigh_spec; rewrite Hm; exact Hmask|].
  split; [apply heldWrite_interrupts|].
  split; [apply heldWrite_logged|].
  split.
  { unfold slotEvents. cbn [app In].
    intros H. repeat (destruct H as [H|H]; [discriminate H|]). exact H. }
  split; [apply activePullupDisable_spec|].
  split; [apply activePullupDisable_spec|].
  intros t. apply activePullupDisable_spec.
Qed.

End Pullup.

Lemma writeByte_pullup_holds_line_and_interrupts_witness :
  exists s',
    writeByte 0x44 true Scenario.busyPort = Some s'
    /\ lineDrivenHigh s'
    /\ interruptsEnabled s' = false
    /\ lineFloating (activePullupDisable s')
    /\ interruptsEnabled (activePullupDisable s') = true.
Proof.
  destruct (writeByte_pullup_holds_line_and_interrupts 0x44 Scenario.busyPort)
    as (_ & s' & Hw & Hd & Hi & _ & _ & Hf & Hi' & _).
  - vm_compute. discriminate.
  - exists s'. repeat (split; [assumption|]). assumption.
Defined.

(** ** Reset: the early return *)

Section ResetReturn.

Context {Env : Type} `{!Port Env} {Callback : Type}.
Implicit Types s : State Env Callback.

Lemma lowPolls_In (e : Event) (n : nat) :
  In e (lowPolls n) -> e = EvDelay 5 \/ e = EvPinRead 0.
Proof.
  induction n as [|n IH]; [intros []|].
  rewrite lowPolls_S. cbn [app In]. intros [H|[H|H]]; auto.
Qed.

(** C9. When the idle wait of [resetAndPresenceDetection] gives up (all
    its samples read low), the function returns [false] on the spot: the
    interrupts, disabled on entry, are still disabled, and no
    [interrupts()] was executed. On the other return path, behind the
    reset pulse, the interrupts are enabled. *)
Theorem reset_early_return_leaves_interrupts_disabled
    (retry : Z) s (idle : bool) (s1 : State Env Callback) :
  resetWaitHigh 256 (retry mod 256) (pinModeInput (noInterrupts s)) = Some (idle, s1) ->
  if idle
  then exists present s',
         resetAndPresenceDetectionWith retry s = Some (present, s')
         /\ interruptsEnabled s' = true
  else resetAndPresenceDetectionWith retry s = Some (false, s1)
       /\ interruptsEnabled s1 = false
       /\ logged s s1 ([EvNoInterrupts; EvPinModeInput; EvPinLow]
                       ++ lowPolls (Z.to_nat (waitRounds (retry mod 256) - 1)))
       /\ ~ In EvInterrupts
              ([EvNoInterrupts; EvPinModeInput; EvPinLow]
               ++ lowPolls (Z.to_nat (waitRounds (retry mod 256) - 1))).
Proof.
  intros E.
  assert (resetAndPresenceDetectionWith retry s
          = if idle then Some (resetPulse s1) else Some (false, s1)) as Hrun.
  { unfold resetAndPresenceDetectionWith. rewrite E. reflexivity. }
  destruct idle.
  - destruct (resetPulse_spec s1) as (v & _ & Hi & _).
    destruct (resetPulse s1) as [present s'] eqn:Ep. cbn [snd] in Hi.
    exists present, s'. split; assumption.
  - split; [exact Hrun|].
    destruct (reset_paths retry s false s1 Hrun)
      as [(_ & Hi & Hl) | (k & v & _ & _ & Hi & _)].
    + split; [exact Hi|]. split; [exact Hl|].
      cbn [app In]. intros H.
      repeat (destruct H as [H|H]; [discriminate H|]).
      apply lowPolls_In in H as [H|H]; discriminate H.
    + apply resetWaitHigh_spec in E; [|apply Z.mod_pos_bound; lia].
      destruct (resetPrologue_spec s) as (Hi0 & _).
      destruct E as (Hi1 & _). congruence.
Qed.

End ResetReturn.

Lemma reset_early_return_leaves_interrupts_disabled_witness :
  exists s1,
    resetAndPresenceDetection Scenario.stuckLow = Some (false, s1)
    /\ interruptsEnabled s1 = false.
Proof.
  destruct (resetWaitHigh 256 (ONEWIRE_RETRY_RESETWAITHIGH mod 256)
              (pinModeInput (noInterrupts Scenario.stuckLow)))
    as [[idle s1]|] eqn:E.
  - assert (idle = false) as Hidle.
    { pose proof E as E2. vm_compute in E2. injection E2 as Hi _. symmetry. exact Hi. }
    subst idle.
    pose proof (reset_early_return_leaves_interrupts_disabled
                  ONEWIRE_RETRY_RESETWAITHIGH Scenario.stuckLow false s1 E)
      as (Hrun & Hi & _).
    exists s1. split; [exact Hrun | exact Hi].
  - vm_compute in E. discriminate E.
Defined.

(** C4, evaluated on a line that reads low on 199 samples and high from
    the 200th on, with a device ready to answer the reset pulse: the
    routine gives up after 199 samples. It returns [false], has driven
    no reset pulse, and the two samples that would have shown the idle
    line and the presence pulse are still to come. *)
Theorem reset_gives_up_before_the_200th_sample :
  (exists s',
     resetAndPresenceDetection Scenario.lateIdle = Some (false, s')
     /\ trace s' = [EvNoInterrupts; EvPinModeInput; EvPinLow] ++ lowPolls 199
     /\ bus s' = ScriptBus.resetSamples true
     /\ interruptsEnabled s' = false)
  /\ ~ In (EvDelay 480) ([EvNoInterrupts; EvPinModeInput; EvPinLow] ++ lowPolls 199).
Proof.
  split.
  - eexists. split; [vm_compute; reflexivity|].
    split; [vm_compute; reflexivity|].
    split; vm_compute; reflexivity.
  - cbn [app In]. intros H.
    repeat (destruct H as [H|H]; [discriminate H|]).
    apply lowPolls_In in H as [H|H]; discriminate H.
Qed.

(** ** The enumeration *)

Section Enumeration.

Context {Env : Type} `{!Port Env} {Callback : Type}.
Implicit Types s : State Env Callback.

Lemma clearAdrCurrent_wf s :
  length (adrCurrent s) = 8%nat -> wfAdr (clearAdrCurrent s).
Proof.
  destruct s as [b ddr port mask irq t adr n cb rep]. cbn [adrCurrent].
  intros Hlen.
  do 8 (destruct adr as [|? adr]; [discriminate Hlen|]).
  destruct adr; [|discriminate Hlen].
  split; [reflexivity|]. cbv [clearAdrCurrent seq fold_left setAdrCurrent adrCurrent].
  cbn [list_insert insert]. repeat constructor; unfold isByte; lia.
Qed.

Lemma noCallback_state s :
  reported (setDiscoverCallback None (setDiscoveredDevices 0 s)) = reported s
  /\ trace (setDiscoverCallback None (setDiscoveredDevices 0 s)) = trace s
  /\ bus (setDiscoverCallback None (setDiscoveredDevices 0 s)) = bus s
  /\ discoveredDevices (setDiscoverCallback None (setDiscoveredDevices 0 s)) = 0.
Proof. destruct s. repeat split. Qed.

Lemma prepared_state (c : option Callback) s :
  reported (clearAdrCurrent (setDiscoverCallback c (setDiscoveredDevices 0 s))) = reported s
  /\ discoveredDevices (clearAdrCurrent (setDiscoverCallback c (setDiscoveredDevices 0 s))) = 0
  /\ (length (adrCurrent s) = 8%nat ->
      wfAdr (clearAdrCurrent (setDiscoverCallback c (setDiscoveredDevices 0 s)))).
Proof.
  split; [destruct s; reflexivity|]. split; [destruct s; reflexivity|].
  intros Hlen. apply clearAdrCurrent_wf. destruct s. exact Hlen.
Qed.

(** The part of [discoverDevices] after the buffer is cleared, with the
    depth budget of the recursion left open. *)
Lemma searchFrom_outcome fuel alarmSearch s0 r s' :
  ('(present, s) ← resetAndPresenceDetection s0;
   if negb present then Some (Returned 0, s)
   else
     s ← searchCommand alarmSearch s;
     s ← discoveryDevicesRecursive fuel 0 alarmSearch s;
     Some (NoReturnValue, s)) = Some (r, s') ->
  grows s0 s' /\ (r = Returned 0 /\ reported s' = reported s0 \/ r = NoReturnValue).
Proof.
  intros H.
  destruct (resetAndPresenceDetection s0) as [[present s1]|] eqn:Er; [|discriminate].
  cbn [mbind option_bind] in H.
  apply reset_soft in Er. pose proof Er as (_ & _ & _ & _ & Hr1).
  apply sameSoft_grows in Er.
  destruct present; cbn [negb] in H.
  - destruct (searchCommand alarmSearch s1) as [s2|] eqn:Ec; [|discriminate].
    apply searchCommand_soft, sameSoft_grows in Ec. cbn [mbind option_bind] in H.
    destruct (discoveryDevicesRecursive fuel 0 alarmSearch s2) as [s3|] eqn:E;
      [|discriminate].
    apply discoveryDevicesRecursive_grows in E. cbn [mbind option_bind] in H.
    injection H as <- <-. split; [|right; reflexivity].
    eapply grows_trans; [exact Er|]. eapply grows_trans; eassumption.
  - injection H as <- <-. split; [exact Er|]. left. split; [reflexivity | exact Hr1].
Qed.

(** What [discoverDevices] leaves behind, on every bus: the log grew by
    valid identifiers only, the device counter is 0 whatever was
    reported, and a value is returned on the two early exits only. *)
Lemma discoverDevices_outcome callback alarmSearch s r s' :
  length (adrCurrent s) = 8%nat ->
  discoverDevices callback alarmSearch s = Some (r, s') ->
  discoveredDevices s' = 0
  /\ exists new,
       reported s' = reported s ++ new /\ Forall validRom new
       /\ (r = Returned 0 /\ new = [] \/ r = NoReturnValue).
Proof.
  intros Hlen H. rewrite discoverDevices_unfold in H.
  destruct callback as [cb|].
  - destruct (prepared_state (Some cb) s) as (Hr0 & Hd0 & Hwf0).
    specialize (Hwf0 Hlen).
    apply searchFrom_outcome in H as ((Hd & _ & new & Hr & Hw) & Hret).
    split; [congruence|]. exists new. split; [congruence|].
    split; [apply Hw, Hwf0|].
    destruct Hret as [[Hret Hsame]|Hret]; [left|right; exact Hret].
    split; [exact Hret|]. rewrite Hsame in Hr.
    apply (f_equal length) in Hr. rewrite length_app in Hr.
    destruct new; [reflexivity | cbn [length] in Hr; lia].
  - injection H as <- <-. destruct (noCallback_state s) as (Hr & _ & _ & Hd).
    split; [exact Hd|]. exists []. rewrite app_nil_r.
    split; [exact Hr|]. split; [constructor | left; split; reflexivity].
Qed.

Lemma validRom_check (id : list Z) :
  length id = 8%nat -> Forall isByte id ->
  (Crc.crcUpdate8 (Crc.crc8 (take 7 id)) (Crc.peek id (8 - 1)) =? 0) = true
  <-> validRom id.
Proof.
  intros Hlen Hbytes. change (8 - 1) with 7.
  assert (isByte (Crc.crc8 (take 7 id))) as Hb1
    by apply CrcFacts.crc8_byte, Forall_take, Hbytes.
  assert (isByte (Crc.peek id 7)) as Hb2 by apply peek_byte, Hbytes.
  rewrite Z.eqb_eq, (CrcFacts.crcUpdate8_zero _ _ Hb1 Hb2).
  unfold validRom. split.
  - intros H. split; [assumption|]. split; [assumption|]. symmetry. exact H.
  - intros (_ & _ & H). symmetry. exact H.
Qed.

(** C5. At depth 64 the enumerator checks the 8 bytes of the identifier
    buffer and calls the callback only if the last byte is the CRC-8 of
    the first 7; otherwise it returns with nothing done. So on every bus
    each identifier that [discoverDevices] adds to the callback log is
    valid: an identifier with a wrong last byte never reaches the
    callback. *)
Theorem callback_receives_only_crc_valid_identifiers
    callback alarmSearch s (r : RetVal) s' :
  length (adrCurrent s) = 8%nat ->
  discoverDevices callback alarmSearch s = Some (r, s') ->
  (exists new, reported s' = reported s ++ new /\ Forall validRom new)
  /\ forall fuel (t : State Env Callback),
       wfAdr t ->
       (validRom (adrCurrent t) ->
        discoveryDevicesRecursive (S fuel) 64 alarmSearch t = invokeCallback t)
       /\ (~ validRom (adrCurrent t) ->
           discoveryDevicesRecursive (S fuel) 64 alarmSearch t = Some t).
Proof.
  intros Hlen H. split.
  - destruct (discoverDevices_outcome _ _ _ _ _ Hlen H) as (_ & new & Hr & Hv & _).
    exists new. split; assumption.
  - intros fuel t [Htlen Htbytes].
    assert (discoveryDevicesRecursive (S fuel) 64 alarmSearch t
            = if Crc.crcUpdate8 (Crc.crc8 (take 7 (adrCurrent t)))
                                (Crc.peek (adrCurrent t) (8 - 1)) =? 0
              then invokeCallback t else Some t) as Hstep.
    { rewrite discoveryDevicesRecursive_S. change (64 =? 8 * 8) with true. cbv iota.
      rewrite check_fold by assumption. reflexivity. }
    pose proof (validRom_check (adrCurrent t) Htlen Htbytes) as Hiff.
    rewrite Hstep.
    destruct (Crc.crcUpdate8 (Crc.crc8 (take 7 (adrCurrent t)))
                             (Crc.peek (adrCurrent t) (8 - 1)) =? 0).
    + split; [reflexivity|]. intros Hn. exfalso. apply Hn, Hiff. reflexivity.
    + split; [|reflexivity]. intros Hv. apply Hiff in Hv. discriminate Hv.
Qed.

Lemma reset_writes_no_bit s (present : bool) s' :
  resetAndPresenceDetection s = Some (present, s') ->
  exists evs, logged s s' evs /\ ~ In EvPinHigh evs.
Proof.
  intros H. apply reset_paths in H.
  destruct H as [(_ & _ & Hl) | (k & v & _ & _ & _ & Hl)];
    eexists; (split; [exact Hl|]); intros Hin.
  - cbn [app In] in Hin.
    repeat (destruct Hin as [Hin|Hin]; [discriminate Hin|]).
    apply lowPolls_In in Hin as [Hin|Hin]; discriminate Hin.
  - rewrite !in_app_iff in Hin. cbn [In pulseEvents] in Hin.
    destruct Hin as [[Hin|[Hin|Hin]]|Hin].
    + repeat (destruct Hin as [Hin|Hin]; [discriminate Hin|]). exact Hin.
    + apply lowPolls_In in Hin as [Hin|Hin]; discriminate Hin.
    + repeat (destruct Hin as [Hin|Hin]; [discriminate Hin|]). exact Hin.
    + repeat (destruct Hin as [Hin|Hin]; [discriminate Hin|]). exact Hin.
Qed.

(** C7. If the reset before a 1 branch finds no device, the enumerator
    returns at once: its result is the state the failed reset left (no
    write slot after the 0 branch, no error value), and the callback log
    is the one the 0 branch produced, which extends the log the call
    started with. *)
Theorem failed_replay_reset_abandons_the_one_branch
    fuel (level : Z) (alarmSearch : bool) s (sa sb s0 s1 : State Env Callback) :
  level <> 64 ->
  readBit s = (0, sa) ->
  readBit sa = (0, sb) ->
  discoveryDevicesRecursive fuel ((level + 1) mod 256) alarmSearch
    (writeBit 0 false (adrClearBit level sb)) = Some s0 ->
  resetAndPresenceDetection s0 = Some (false, s1) ->
  discoveryDevicesRecursive (S fuel) level alarmSearch s = Some s1
  /\ reported s1 = reported s0
  /\ (exists found, reported s0 = reported s ++ found)
  /\ exists evs, logged s0 s1 evs /\ ~ In EvPinHigh evs.
Proof.
  intros Hlevel Ha Hb E0 Er. split; [|split; [|split]].
  - rewrite discoveryDevicesRecursive_S. change (8 * 8) with 64.
    rewrite (proj2 (Z.eqb_neq level 64) Hlevel), Ha. cbv iota. rewrite Hb. cbv iota.
    change ((0 =? 1) && (0 =? 1)) with false.
    change ((0 =? 0) && (0 =? 1)) with false.
    change ((0 =? 1) && (0 =? 0)) with false. cbv iota.
    rewrite E0. cbn [mbind option_bind]. rewrite Er. reflexivity.
  - apply reset_soft in Er. apply Er.
  - pose proof (readBit_grows s) as Ga. rewrite Ha in Ga. cbn [snd] in Ga.
    pose proof (readBit_grows sa) as Gb. rewrite Hb in Gb. cbn [snd] in Gb.
    apply discoveryDevicesRecursive_grows in E0.
    assert (grows s s0) as (_ & _ & found & Hr & _).
    { eapply grows_trans; [exact Ga|]. eapply grows_trans; [exact Gb|].
      eapply grows_trans; [apply zeroStep_grows | exact E0]. }
    exists found. exact Hr.
  - eapply reset_writes_no_bit, Er.
Qed.

End Enumeration.

(** ** The collision case *)

(** *** Bits of the identifier buffer *)

Section Bits.

Lemma testbit_bit (k j : Z) : 0 <= k -> Z.testbit (Z.shiftl 1 k) j = (k =? j).
Proof. intros Hk. rewrite Z.shiftl_1_l. apply Z.pow2_bits_eqb. exact Hk. Qed.

Lemma land_bit_zero (x k : Z) :
  0 <= k -> (Z.land x (Z.shiftl 1 k) =? 0) = negb (Z.testbit x k).
Proof.
  intros Hk. destruct (Z.testbit x k) eqn:E; cbn [negb].
  - apply Z.eqb_neq. intros H.
    apply (f_equal (fun z => Z.testbit z k)) in H.
    rewrite Z.land_spec, testbit_bit, E, Z.eqb_refl, Z.bits_0 in H by exact Hk.
    discriminate H.
  - apply Z.eqb_eq. apply Z.bits_inj'. intros n Hn.
    rewrite Z.land_spec, testbit_bit, Z.bits_0 by exact Hk.
    destruct (Z.eqb_spec k n) as [->|Hne]; [rewrite E; reflexivity|].
    apply andb_false_r.
Qed.

Lemma mod8_range (i : Z) : 0 <= i mod 8 < 8.
Proof. apply Z.mod_pos_bound. lia. Qed.

Lemma same_byte_other_bit (i level : Z) :
  i / 8 = level / 8 -> i <> level -> i mod 8 <> level mod 8.
Proof.
  intros Hd Hne Hm. apply Hne.
  rewrite (Z.div_mod i 8), (Z.div_mod level 8) by lia. rewrite Hd, Hm. reflexivity.
Qed.

(** Writing byte [level / 8] changes no bit of another byte, and within
    the byte only what the new value changes. *)
Lemma bitOf_insert_other (adr : list Z) (level i : Z) (v : Z) :
  0 <= level -> 0 <= i -> i <> level ->
  (forall k, 0 <= k < 8 -> k <> level mod 8 ->
             Z.testbit v k = Z.testbit (Crc.peek adr (level / 8)) k) ->
  bitOf (<[Z.to_nat (level / 8) := v]> adr) i = bitOf adr i.
Proof.
  intros Hl Hi Hne Hv. unfold bitOf, Crc.peek.
  assert (0 <= i / 8) by (apply Z.div_pos; lia).
  assert (0 <= level / 8) by (apply Z.div_pos; lia).
  destruct (decide (i / 8 = level / 8)) as [Hd|Hd].
  - rewrite Hd.
    destruct (decide (Z.to_nat (level / 8) < length adr)%nat) as [Hlt|Hge].
    + rewrite list_lookup_insert_eq by exact Hlt. cbn [default].
      rewrite Hv; [reflexivity | apply mod8_range |].
      apply same_byte_other_bit; assumption.
    + rewrite list_insert_ge by lia. reflexivity.
  - rewrite list_lookup_insert_ne by lia. reflexivity.
Qed.

Lemma bitOf_insert_same (adr : list Z) (level : Z) (v : Z) :
  (Z.to_nat (level / 8) < length adr)%nat ->
  bitOf (<[Z.to_nat (level / 8) := v]> adr) level = Z.testbit v (level mod 8).
Proof.
  intros Hlt. unfold bitOf, Crc.peek.
  rewrite list_lookup_insert_eq by exact Hlt. reflexivity.
Qed.

Lemma index_in_buffer (adr : list Z) (level : Z) :
  0 <= level < 64 -> length adr = 8%nat -> (Z.to_nat (level / 8) < length adr)%nat.
Proof.
  intros Hl Hlen. rewrite Hlen.
  assert (level / 8 < 8) by (apply Z.div_lt_upper_bound; lia).
  assert (0 <= level / 8) by (apply Z.div_pos; lia). lia.
Qed.

End Bits.

Section Recording.

Context {Env : Type} `{!Port Env} {Callback : Type}.
Implicit Types s : State Env Callback.

Lemma adrCurrent_adrSetBit level s :
  adrCurrent (adrSetBit level s)
  = <[Z.to_nat (level / 8) :=
        Z.lor (Crc.peek (adrCurrent s) (level / 8)) (Z.shiftl 1 (level mod 8))]>
      (adrCurrent s).
Proof. destruct s. reflexivity. Qed.

Lemma adrCurrent_adrClearBit level s :
  adrCurrent (adrClearBit level s)
  = <[Z.to_nat (level / 8) :=
        Z.land (Crc.peek (adrCurrent s) (level / 8)) (Z.lnot (Z.shiftl 1 (level mod 8)))]>
      (adrCurrent s).
Proof. destruct s. reflexivity. Qed.

Lemma adrSetBit_other level i s :
  0 <= level -> 0 <= i -> i <> level ->
  bitOf (adrCurrent (adrSetBit level s)) i = bitOf (adrCurrent s) i.
Proof.
  intros Hl Hi Hne. rewrite adrCurrent_adrSetBit.
  apply bitOf_insert_other; try assumption.
  intros k Hk Hkne. rewrite Z.lor_spec, testbit_bit by apply mod8_range.
  replace (level mod 8 =? k) with false by (symmetry; apply Z.eqb_neq; lia).
  apply orb_false_r.
Qed.

Lemma adrClearBit_other level i s :
  0 <= level -> 0 <= i -> i <> level ->
  bitOf (adrCurrent (adrClearBit level s)) i = bitOf (adrCurrent s) i.
Proof.
  intros Hl Hi Hne. rewrite adrCurrent_adrClearBit.
  apply bitOf_insert_other; try assumption.
  intros k Hk Hkne.
  rewrite Z.land_spec, Z.lnot_spec, testbit_bit by (apply mod8_range || lia).
  replace (level mod 8 =? k) with false by (symmetry; apply Z.eqb_neq; lia).
  apply andb_true_r.
Qed.

Lemma adrSetBit_records level s :
  0 <= level < 64 -> length (adrCurrent s) = 8%nat ->
  records level true (adrCurrent s) (adrCurrent (adrSetBit level s)).
Proof.
  intros Hl Hlen. split.
  - rewrite adrCurrent_adrSetBit, bitOf_insert_same by (apply index_in_buffer; assumption).
    rewrite Z.lor_spec, testbit_bit, Z.eqb_refl by apply mod8_range.
    apply orb_true_r.
  - intros i Hi Hne. apply adrSetBit_other; lia.
Qed.

Lemma adrClearBit_records level s :
  0 <= level < 64 -> length (adrCurrent s) = 8%nat ->
  records level false (adrCurrent s) (adrCurrent (adrClearBit level s)).
Proof.
  intros Hl Hlen. split.
  - rewrite adrCurrent_adrClearBit, bitOf_insert_same
      by (apply index_in_buffer; assumption).
    rewrite Z.land_spec, Z.lnot_spec, testbit_bit, Z.eqb_refl
      by (apply mod8_range).
    apply andb_false_r.
  - intros i Hi Hne. apply adrClearBit_other; lia.
Qed.

Lemma adrBit_bitOf i s : adrBit i s = Z.b2z (bitOf (adrCurrent s) i).
Proof.
  unfold adrBit, bitOf. rewrite land_bit_zero by apply mod8_range.
  destruct (Z.testbit _ _); reflexivity.
Qed.

Lemma length_adrSetBit level s :
  length (adrCurrent (adrSetBit level s)) = length (adrCurrent s).
Proof. rewrite adrCurrent_adrSetBit. apply length_insert. Qed.

Lemma length_adrClearBit level s :
  length (adrCurrent (adrClearBit level s)) = length (adrCurrent s).
Proof. rewrite adrCurrent_adrClearBit. apply length_insert. Qed.

End Recording.

(** *** Both branches, and the replay between them *)

Section Collision.

Context {Env : Type} `{!Port Env} {Callback : Type}.
Implicit Types s : State Env Callback.

Lemma sameSoft_adr s s' : sameSoft s s' -> adrCurrent s' = adrCurrent s.
Proof. intros (_ & H & _). exact H. Qed.

Lemma adrCurrent_report id s : adrCurrent (report id s) = adrCurrent s.
Proof. destruct s. reflexivity. Qed.

Lemma zeroStep_adr level s :
  adrCurrent (writeBit 0 false (adrClearBit level s)) = adrCurrent (adrClearBit level s).
Proof. apply sameSoft_adr, writeBit_soft. Qed.

Lemma oneStep_adr level s :
  adrCurrent (writeBit 1 false (adrSetBit level s)) = adrCurrent (adrSetBit level s).
Proof. apply sameSoft_adr, writeBit_soft. Qed.

(** A call at depth [level] keeps the length of the buffer and every bit
    below [level]. *)
Lemma discoveryDevicesRecursive_keeps_lower_bits fuel :
  forall level alarmSearch s s',
    0 <= level <= 64 ->
    discoveryDevicesRecursive fuel level alarmSearch s = Some s' ->
    length (adrCurrent s') = length (adrCurrent s)
    /\ forall i, 0 <= i < level -> bitOf (adrCurrent s') i = bitOf (adrCurrent s) i.
Proof.
  induction fuel as [|fuel IH]; intros level alarmSearch s s' Hlevel H; [discriminate|].
  rewrite discoveryDevicesRecursive_S in H. change (8 * 8) with 64 in H.
  destruct (level =? 64) eqn:El.
  - destruct (Crc.crc8CheckIButton 8 (adrCurrent s) (8 - 1)
                (Crc.peek (adrCurrent s) (8 - 1))) as [valid|]; [|discriminate].
    cbn [mbind option_bind] in H. destruct valid.
    + unfold invokeCallback in H.
      destruct (discoverCallback s); [|discriminate].
      apply (inj Some) in H. subst s'. rewrite adrCurrent_report. split; reflexivity.
    + apply (inj Some) in H. subst s'. split; reflexivity.
  - apply Z.eqb_neq in El.
    rewrite (Z.mod_small (level + 1) 256) in H by lia.
    pose proof (sameSoft_adr _ _ (readBit_soft s)) as Ha.
    destruct (readBit s) as [a s1]. cbn [snd] in Ha.
    pose proof (sameSoft_adr _ _ (readBit_soft s1)) as Hb.
    destruct (readBit s1) as [b s2]. cbn [snd] in Hb.
    assert (adrCurrent s2 = adrCurrent s) as H2 by congruence. clear Ha Hb.
    assert (length (adrCurrent (writeBit 0 false (adrClearBit level s2)))
              = length (adrCurrent s)
            /\ forall i, 0 <= i < level ->
                 bitOf (adrCurrent (writeBit 0 false (adrClearBit level s2))) i
                 = bitOf (adrCurrent s) i) as [Hz1 Hz2].
    { rewrite zeroStep_adr. split.
      - rewrite length_adrClearBit, H2. reflexivity.
      - intros i Hi. rewrite adrClearBit_other, H2 by lia. reflexivity. }
    assert (forall t : State Env Callback, adrCurrent t = adrCurrent s2 ->
              length (adrCurrent (writeBit 1 false (adrSetBit level t)))
                = length (adrCurrent s2)
              /\ forall i, 0 <= i < level ->
                   bitOf (adrCurrent (writeBit 1 false (adrSetBit level t))) i
                   = bitOf (adrCurrent s2) i) as Hone.
    { intros t Ht. rewrite oneStep_adr. split.
      - rewrite length_adrSetBit, Ht. reflexivity.
      - intros i Hi. rewrite adrSetBit_other, Ht by lia. reflexivity. }
    destruct ((a =? 1) && (b =? 1)).
    { apply (inj Some) in H. subst s'. rewrite H2. split; reflexivity. }
    destruct ((a =? 0) && (b =? 1)).
    { apply IH in H as [Hl Hb]; [|lia]. split; [congruence|].
      intros i Hi. rewrite Hb by lia. apply Hz2. exact Hi. }
    destruct ((a =? 1) && (b =? 0)).
    { apply IH in H as [Hl Hb]; [|lia].
      destruct (Hone s2 eq_refl) as [Ho1 Ho2]. split; [congruence|].
      intros i Hi. rewrite Hb, Ho2, H2 by lia. reflexivity. }
    destruct (discoveryDevicesRecursive fuel (level + 1) alarmSearch
                (writeBit 0 false (adrClearBit level s2))) as [s3|] eqn:E0;
      [|discriminate].
    apply IH in E0 as [Hl3 Hb3]; [|lia]. cbn [mbind option_bind] in H.
    destruct (resetAndPresenceDetection s3) as [[present s4]|] eqn:Er;
      [|discriminate].
    apply reset_soft, sameSoft_adr in Er. cbn [mbind option_bind] in H.
    destruct present; cbn [negb] in H.
    + destruct (searchCommand alarmSearch s4) as [s5|] eqn:Ec; [|discriminate].
      apply searchCommand_soft, sameSoft_adr in Ec. cbn [mbind option_bind] in H.
      pose proof (sameSoft_adr _ _ (replay_soft level s5)) as Hrep.
      pose proof (sameSoft_adr _ _ (readBit_soft (adrSetBit level (replay level s5))))
        as Hx.
      destruct (readBit (adrSetBit level (replay level s5))) as [x s6].
      cbn [snd] in Hx.
      pose proof (sameSoft_adr _ _ (readBit_soft s6)) as Hy.
      destruct (readBit s6) as [y s7]. cbn [snd] in Hy.
      apply IH in H as [Hl Hb]; [|lia].
      pose proof (sameSoft_adr _ _ (writeBit_soft 1 false s7)) as Hw.
      split.
      * rewrite Hl, Hw, Hy, Hx, length_adrSetBit, Hrep, Ec, Er, Hl3, Hz1. reflexivity.
      * intros i Hi. rewrite Hb, Hw, Hy, Hx by lia.
        rewrite adrSetBit_other, Hrep, Ec, Er by lia.
        rewrite Hb3 by lia. apply Hz2. exact Hi.
    + apply (inj Some) in H. subst s'. rewrite Er. split; [congruence|].
      intros i Hi. rewrite Hb3 by lia. apply Hz2. exact Hi.
Qed.

Lemma readBit_logged s :
  logged s (snd (readBit s)) (readEvents (fst (readBit s))).
Proof.
  destruct s as [b ddr port mask irq t adr n cb rep]. unfold readEvents. run.
  rewrite <- !app_assoc. reflexivity.
Qed.

Lemma replayStep_logged s i :
  exists x y,
    logged s (replayStep s i)
           (readEvents x ++ readEvents y
            ++ slotEvents (Z.b2z (bitOf (adrCurrent s) i)) false)
    /\ adrCurrent (replayStep s i) = adrCurrent s.
Proof.
  unfold replayStep.
  pose proof (readBit_logged s) as L1.
  pose proof (sameSoft_adr _ _ (readBit_soft s)) as A1.
  destruct (readBit s) as [x s1]. cbn [fst snd] in *.
  pose proof (readBit_logged s1) as L2.
  pose proof (sameSoft_adr _ _ (readBit_soft s1)) as A2.
  destruct (readBit s1) as [y s2]. cbn [fst snd] in *.
  exists x, y. split.
  - eapply logged_trans; [exact L1|]. eapply logged_trans; [exact L2|].
    rewrite adrBit_bitOf, A2, A1. apply writeBit_logged.
  - rewrite (sameSoft_adr _ _ (writeBit_soft _ false s2)). congruence.
Qed.

Lemma replayFrom_logged (n : nat) : forall (start : nat) s,
  exists reads : list (Z * Z),
    length reads = n
    /\ logged s (fold_left replayStep (map Z.of_nat (seq start n)) s)
         (concat (imap (fun j '(x, y) =>
                          readEvents x ++ readEvents y
                          ++ slotEvents (Z.b2z (bitOf (adrCurrent s)
                                                    (Z.of_nat (start + j)))) false)
                       reads)).
Proof.
  induction n as [|n IH]; intros start s.
  - exists []. split; [reflexivity | apply logged_refl].
  - cbn [seq map]. rewrite fold_left_step.
    destruct (replayStep_logged s (Z.of_nat start)) as (x & y & L1 & A1).
    destruct (IH (S start) (replayStep s (Z.of_nat start))) as (reads & Hlen & L2).
    exists ((x, y) :: reads). split; [cbn [length]; congruence|].
    rewrite imap_cons. cbn [concat]. rewrite Nat.add_0_r.
    eapply logged_trans; [exact L1|].
    rewrite A1 in L2.
    erewrite imap_ext; [exact L2|].
    intros j [x' y'] _. cbn. replace (start + S j)%nat with (S (start + j)) by lia.
    reflexivity.
Qed.

Lemma replay_logged level s :
  exists reads : list (Z * Z),
    length reads = Z.to_nat level
    /\ logged s (replay level s) (replayEvents (adrCurrent s) reads).
Proof. unfold replay, replayEvents. apply (replayFrom_logged (Z.to_nat level) 0 s). Qed.

Lemma searchCommand_logged alarmSearch s :
  exists s', searchCommand alarmSearch s = Some s'
             /\ logged s s' (searchCommandEvents alarmSearch).
Proof.
  unfold searchCommand, searchCommandEvents.
  destruct alarmSearch; cbn [negb]; apply writeByte_logged.
Qed.

Lemma trace_adrClearBit level s : trace (adrClearBit level s) = trace s.
Proof. destruct s. reflexivity. Qed.

Lemma trace_adrSetBit level s : trace (adrSetBit level s) = trace s.
Proof. destruct s. reflexivity. Qed.

Lemma reported_adrClearBit level s : reported (adrClearBit level s) = reported s.
Proof. destruct s. reflexivity. Qed.

Lemma reported_adrSetBit level s : reported (adrSetBit level s) = reported s.
Proof. destruct s. reflexivity. Qed.

Lemma sameSoft_reported s s' : sameSoft s s' -> reported s' = reported s.
Proof. intros (_ & _ & _ & _ & H). exact H. Qed.

Lemma replayEvents_below (adr adr' : list Z) (reads : list (Z * Z)) :
  (forall i, 0 <= i < Z.of_nat (length reads) -> bitOf adr' i = bitOf adr i) ->
  replayEvents adr' reads = replayEvents adr reads.
Proof.
  intros H. unfold replayEvents. f_equal. apply imap_ext.
  intros j [x y] Hj. apply lookup_lt_Some in Hj. cbn. rewrite H by lia. reflexivity.
Qed.

(** C2. At depth [level < 64], after the reads [a = 0] and [b = 0], the
    call returns and what it did is, in this order:
    - one write slot for a 0, with bit [level] of the buffer recorded as
      0, no other bit touched and no call of the callback; the recursion
      at [level + 1];
    - the reset with presence detection. If it finds no device the call
      ends there. If it finds one:
    - the search command (0xF0, or 0xEC for an alarm search);
    - for each depth [0 .. level - 1], in this order, two read slots and a
      write slot for the bit the buffer held at that depth when the call
      started;
    - two more read slots, whatever they sample;
    - one write slot for a 1, with bit [level] recorded as 1, the bits
      below [level] still those of the start and the other bits those
      the 0 branch left, and no call of the callback since the 0 branch
      returned; the recursion at [level + 1], whose result is the result
      of the call.
    The steps on the bus are read off the event log; the recorded bits
    off the buffer with [Z.testbit]. *)
Theorem collision_splits_into_zero_branch_replay_and_one_branch
    fuel (level : Z) (alarmSearch : bool) s (sa sb : State Env Callback) :
  0 <= level < 64 ->
  65 - level <= Z.of_nat (S fuel) ->
  length (adrCurrent s) = 8%nat ->
  discoverCallback s <> None ->
  readBit s = (0, sa) ->
  readBit sa = (0, sb) ->
  exists z0 s0 (present : bool) s1 s',
    discoveryDevicesRecursive (S fuel) level alarmSearch s = Some s'
    /\ logged sb z0 (slotEvents 0 false)
    /\ records level false (adrCurrent s) (adrCurrent z0)
    /\ reported z0 = reported s
    /\ discoveryDevicesRecursive fuel (level + 1) alarmSearch z0 = Some s0
    /\ resetAndPresenceDetection s0 = Some (present, s1)
    /\ if present
       then exists k reads x y o1,
              length reads = Z.to_nat level
              /\ logged s0 o1
                   (resetEvents k 0
                    ++ searchCommandEvents alarmSearch
                    ++ replayEvents (adrCurrent s) reads
                    ++ readEvents x ++ readEvents y
                    ++ slotEvents 1 false)
              /\ records level true (adrCurrent s0) (adrCurrent o1)
              /\ (forall i, 0 <= i < level ->
                    bitOf (adrCurrent o1) i = bitOf (adrCurrent s) i)
              /\ reported o1 = reported s0
              /\ discoveryDevicesRecursive fuel (level + 1) alarmSearch o1 = Some s'
       else s' = s1.
Proof.
  intros Hlevel Hfuel Hlen Hcb Ha Hb.
  rewrite discoveryDevicesRecursive_S. change (8 * 8) with 64.
  rewrite (proj2 (Z.eqb_neq level 64)) by lia.
  rewrite Ha. cbv iota. rewrite Hb. cbv iota.
  change ((0 =? 1) && (0 =? 1)) with false.
  change ((0 =? 0) && (0 =? 1)) with false.
  change ((0 =? 1) && (0 =? 0)) with false. cbv iota.
  rewrite (Z.mod_small (level + 1) 256) by lia.
  pose proof (readBit_soft s) as Sa. rewrite Ha in Sa. cbn [snd] in Sa.
  pose proof (readBit_soft sa) as Sb. rewrite Hb in Sb. cbn [snd] in Sb.
  assert (adrCurrent sb = adrCurrent s) as Hadr
    by (rewrite (sameSoft_adr _ _ Sb); apply (sameSoft_adr _ _ Sa)).
  assert (discoverCallback sb <> None) as Hcbb.
  { eapply grows_callback; [apply sameSoft_grows, Sb|].
    eapply grows_callback; [apply sameSoft_grows, Sa | exact Hcb]. }
  set (z0 := writeBit 0 false (adrClearBit level sb)).
  assert (discoverCallback z0 <> None) as Hcb0
    by (eapply grows_callback; [apply zeroStep_grows | exact Hcbb]).
  destruct (discoveryDevicesRecursive_total fuel (level + 1) alarmSearch z0)
    as [s0 E0]; [lia | lia | exact Hcb0 |].
  rewrite E0. cbn [mbind option_bind].
  assert (discoverCallback s0 <> None) as Hcbs0
    by (eapply grows_callback; [eapply discoveryDevicesRecursive_grows, E0 | exact Hcb0]).
  destruct (reset_total ONEWIRE_RETRY_RESETWAITHIGH s0) as [[present s1] Er].
  fold (resetAndPresenceDetection s0) in Er. rewrite Er. cbn [mbind option_bind].
  assert (logged sb z0 (slotEvents 0 false)) as L0.
  { pose proof (writeBit_logged 0 false (adrClearBit level sb)) as L.
    unfold logged in *. subst z0. rewrite L, trace_adrClearBit. reflexivity. }
  assert (records level false (adrCurrent s) (adrCurrent z0)) as R0.
  { subst z0. rewrite zeroStep_adr, <- Hadr.
    apply adrClearBit_records; [lia | congruence]. }
  assert (reported z0 = reported s) as P0.
  { subst z0. rewrite (sameSoft_reported _ _ (writeBit_soft 0 false _)).
    rewrite reported_adrClearBit, (sameSoft_reported _ _ Sb).
    apply (sameSoft_reported _ _ Sa). }
  destruct (discoveryDevicesRecursive_keeps_lower_bits fuel (level + 1) alarmSearch
              z0 s0 ltac:(lia) E0)
    as [Hlen0 Hlow0].
  assert (length (adrCurrent s0) = 8%nat) as Hlen0'.
  { rewrite Hlen0. subst z0. rewrite zeroStep_adr, length_adrClearBit. congruence. }
  assert (forall i, 0 <= i < level -> bitOf (adrCurrent s0) i = bitOf (adrCurrent s) i)
    as Hlow.
  { intros i Hi. rewrite Hlow0 by lia. rewrite (proj2 R0) by lia. reflexivity. }
  pose proof (reset_soft _ _ _ _ Er) as Sr.
  destruct present; cbn [negb].
  - destruct (reset_paths _ _ _ _ Er) as [(Hf & _) | (k & v & _ & Hv & _ & Lr)];
      [discriminate Hf|].
    symmetry in Hv. apply Z.eqb_eq in Hv. subst v.
    destruct (searchCommand_logged alarmSearch s1) as (s5 & Ec & Lc).
    rewrite Ec. cbn [mbind option_bind].
    pose proof (searchCommand_soft _ _ _ Ec) as Sc.
    destruct (replay_logged level s5) as (reads & Hreads & Lp).
    pose proof (replay_soft level s5) as Sp.
    assert (adrCurrent (replay level s5) = adrCurrent s0) as Hadr5.
    { rewrite (sameSoft_adr _ _ Sp), (sameSoft_adr _ _ Sc). apply (sameSoft_adr _ _ Sr). }
    assert (adrCurrent s5 = adrCurrent s0) as Hadr5'.
    { rewrite (sameSoft_adr _ _ Sc). apply (sameSoft_adr _ _ Sr). }
    pose proof (oneBranchSetup_grows level s5) as G1.
    pose proof (readBit_logged (adrSetBit level (replay level s5))) as Lx.
    pose proof (readBit_soft (adrSetBit level (replay level s5))) as Sx.
    destruct (readBit (adrSetBit level (replay level s5))) as [x s6].
    cbn [fst snd] in Lx, Sx, G1.
    pose proof (sameSoft_adr _ _ Sx) as Ax.
    pose proof (readBit_logged s6) as Ly.
    pose proof (readBit_soft s6) as Sy.
    destruct (readBit s6) as [y s7]. cbn [fst snd] in Ly, Sy, G1.
    pose proof (sameSoft_adr _ _ Sy) as Ay.
    pose proof (writeBit_logged 1 false s7) as Lw.
    pose proof (writeBit_soft 1 false s7) as Sw.
    pose proof (sameSoft_adr _ _ Sw) as Aw.
    set (o1 := writeBit 1 false s7) in *.
    assert (reported o1 = reported s0) as P1.
    { rewrite (sameSoft_reported _ _ Sw), (sameSoft_reported _ _ Sy).
      rewrite (sameSoft_reported _ _ Sx), reported_adrSetBit.
      rewrite (sameSoft_reported _ _ Sp), (sameSoft_reported _ _ Sc).
      apply (sameSoft_reported _ _ Sr). }
    assert (adrCurrent o1 = adrCurrent (adrSetBit level (replay level s5))) as Ao
      by congruence.
    assert (records level true (adrCurrent s0) (adrCurrent o1)) as R1.
    { rewrite Ao, <- Hadr5. apply adrSetBit_records; [lia | congruence]. }
    assert (discoverCallback o1 <> None) as Hcbo.
    { eapply grows_callback; [exact G1|].
      eapply grows_callback; [apply sameSoft_grows, Sc|].
      eapply grows_callback; [apply sameSoft_grows, Sr | exact Hcbs0]. }
    destruct (discoveryDevicesRecursive_total fuel (level + 1) alarmSearch o1)
      as [s' E1]; [lia | lia | exact Hcbo |].
    exists z0, s0, true, s1, s'.
    split; [exact E1|]. split; [exact L0|]. split; [exact R0|]. split; [exact P0|].
    split; [exact E0|]. split; [exact Er|].
    exists k, reads, x, y, o1.
    split; [exact Hreads|].
    split; [|split; [exact R1|split; [|split; [exact P1 | exact E1]]]].
    + rewrite <- (replayEvents_below (adrCurrent s) (adrCurrent s5) reads).
      * eapply logged_trans; [exact Lr|].
        eapply logged_trans; [exact Lc|].
        eapply logged_trans; [exact Lp|].
        eapply logged_trans; [|eapply logged_trans; [exact Ly | exact Lw]].
        unfold logged in *. rewrite Lx, trace_adrSetBit. reflexivity.
      * intros i Hi. rewrite Hadr5'. apply Hlow. lia.
    + intros i Hi. rewrite (proj2 R1) by lia. apply Hlow. exact Hi.
  - exists z0, s0, false, s1, s1.
    split; [reflexivity|]. split; [exact L0|]. split; [exact R0|]. split; [exact P0|].
    split; [exact E0|]. split; [exact Er|]. reflexivity.
Qed.

End Collision.

Lemma callback_receives_only_crc_valid_identifiers_witness :
  exists r s' new,
    discoverDevices (Some 0%nat) false (Scenario.oneDevice Scenario.romCorrupt)
      = Some (r, s')
    /\ reported s' = reported (Scenario.oneDevice Scenario.romCorrupt) ++ new
    /\ Forall validRom new.
Proof.
  destruct (discoverDevices (Some 0%nat) false (Scenario.oneDevice Scenario.romCorrupt))
    as [[r s']|] eqn:E.
  - destruct (callback_receives_only_crc_valid_identifiers
                (Some 0%nat) false (Scenario.oneDevice Scenario.romCorrupt) r s')
      as [(new & Hr & Hv) _].
    + reflexivity.
    + exact E.
    + exists r, s', new. split; [reflexivity|]. split; assumption.
  - vm_compute in E. discriminate E.
Defined.

(** A device whose last identifier byte is not the CRC-8 of the others is
    walked to depth 64 and dropped there. *)
Example corrupt_identifier_is_dropped :
  ~ validRom Scenario.romCorrupt
  /\ exists s',
       discoverDevices (Some 0%nat) false (Scenario.oneDevice Scenario.romCorrupt)
         = Some (NoReturnValue, s')
       /\ adrCurrent s' = Scenario.romCorrupt
       /\ reported s' = [].
Proof.
  split.
  - intros (_ & _ & H). vm_compute in H. discriminate H.
  - eexists. split; [vm_compute; reflexivity|]. split; vm_compute; reflexivity.
Qed.

Lemma collision_splits_into_zero_branch_replay_and_one_branch_witness :
  (exists (z0 s0 : State ScriptBus.Env nat) (present : bool) s1 s',
     discoveryDevicesRecursive 56 9 false Scenario.collisionAtNine = Some s'
     /\ logged (snd (readBit (snd (readBit Scenario.collisionAtNine)))) z0 (slotEvents 0 false)
     /\ records 9 false (adrCurrent Scenario.collisionAtNine) (adrCurrent z0)
     /\ reported z0 = reported Scenario.collisionAtNine
     /\ discoveryDevicesRecursive 55 (9 + 1) false z0 = Some s0
     /\ resetAndPresenceDetection s0 = Some (present, s1)
     /\ if present
        then exists k reads x y o1,
               length reads = Z.to_nat 9
               /\ logged s0 o1
                    (resetEvents k 0
                     ++ searchCommandEvents false
                     ++ replayEvents (adrCurrent Scenario.collisionAtNine) reads
                     ++ readEvents x ++ readEvents y
                     ++ slotEvents 1 false)
               /\ records 9 true (adrCurrent s0) (adrCurrent o1)
               /\ (forall i, 0 <= i < 9 ->
                     bitOf (adrCurrent o1) i = bitOf (adrCurrent Scenario.collisionAtNine) i)
               /\ reported o1 = reported s0
               /\ discoveryDevicesRecursive 55 (9 + 1) false o1 = Some s'
        else s' = s1)
  /\ exists s' : State ScriptBus.Env nat,
       discoveryDevicesRecursive 56 9 false Scenario.collisionAtNine = Some s'
       /\ reported s' = [Scenario.romA; Scenario.romC].
Proof.
  split.
  - apply (collision_splits_into_zero_branch_replay_and_one_branch
             55 9 false Scenario.collisionAtNine
             (snd (readBit Scenario.collisionAtNine))
             (snd (readBit (snd (readBit Scenario.collisionAtNine))))).
    + lia.
    + lia.
    + reflexivity.
    + discriminate.
    + vm_compute. reflexivity.
    + vm_compute. reflexivity.
  - eexists. split; vm_compute; reflexivity.
Defined.

Lemma failed_replay_reset_abandons_the_one_branch_witness :
  exists s0 s1 : State ScriptBus.Env nat,
    discoveryDevicesRecursive 65 0 false (Scenario.twoDevices false) = Some s1
    /\ reported s1 = reported s0
    /\ exists found, reported s0 = reported (Scenario.twoDevices false) ++ found.
Proof.
  destruct (discoveryDevicesRecursive 64 ((0 + 1) mod 256) false
              (writeBit 0 false
                 (adrClearBit 0 (snd (readBit (snd (readBit (Scenario.twoDevices false))))))))
    as [s0|] eqn:E0.
  - destruct (resetAndPresenceDetection s0) as [[present s1]|] eqn:Er.
    + assert (present = false) as Hp.
      { pose proof E0 as E0'. vm_compute in E0'. injection E0' as <-.
        pose proof Er as Er'. vm_compute in Er'. injection Er' as Hp _.
        symmetry. exact Hp. }
      subst present.
      destruct (failed_replay_reset_abandons_the_one_branch 64 0 false
                  (Scenario.twoDevices false)
                  (snd (readBit (Scenario.twoDevices false)))
                  (snd (readBit (snd (readBit (Scenario.twoDevices false)))))
                  s0 s1) as (Hrun & Hr & Hfound & _).
      * lia.
      * vm_compute. reflexivity.
      * vm_compute. reflexivity.
      * exact E0.
      * exact Er.
      * exists s0, s1. split; [exact Hrun|]. split; [exact Hr | exact Hfound].
    + pose proof E0 as E0'. vm_compute in E0'. injection E0' as <-.
      vm_compute in Er. discriminate Er.
  - vm_compute in E0. discriminate E0.
Defined.

(** C1, evaluated with a callback and one device with a valid identifier
    on the bus: the callback is called once, with that identifier, and
    [discoverDevices] runs off the end of its body, so the call has no
    count to hand back; the member [discoveredDevices] is still 0. *)
Theorem discoverDevices_reports_a_device_and_returns_no_count :
  exists s',
    discoverDevices (Some 0%nat) false (Scenario.oneDevice Scenario.romA)
      = Some (NoReturnValue, s')
    /\ reported s' = [Scenario.romA]
    /\ discoveredDevices s' = 0.
Proof.
  eexists. split; [vm_compute; reflexivity|].
  split; vm_compute; reflexivity.
Qed.

(** ** Error detection of the CRC *)

Module CrcDetects.
Import Crc.

(** Eight rounds are one-to-one on bytes: checked on all pairs. *)
Lemma rounds_inj (x y : Z) :
  isByte x -> isByte y ->
  Nat.iter 8 crcRound x = Nat.iter 8 crcRound y -> x = y.
Proof.
  intros Hx Hy H.
  pose proof (byte_forall
    (fun x => forallb (fun y => implb (Nat.iter 8 crcRound x =? Nat.iter 8 crcRound y)
                                      (x =? y)) allBytes)) as Hall.
  specialize (Hall ltac:(vm_compute; reflexivity) x Hx).
  rewrite forallb_forall in Hall.
  specialize (Hall y (allBytes_complete y Hy)).
  rewrite H, Z.eqb_refl in Hall. cbn [implb] in Hall.
  apply Z.eqb_eq, Hall.
Qed.

Lemma lxor_cancel_r (a b x : Z) : Z.lxor a x = Z.lxor b x -> a = b.
Proof.
  intros H. apply (f_equal (fun z => Z.lxor z x)) in H.
  rewrite !Z.lxor_assoc, Z.lxor_nilpotent, !Z.lxor_0_r in H. exact H.
Qed.

Lemma lxor_cancel_l (x a b : Z) : Z.lxor x a = Z.lxor x b -> a = b.
Proof. rewrite !(Z.lxor_comm x). apply lxor_cancel_r. Qed.

Lemma crcUpdate8_inj_crc (a b data : Z) :
  isByte a -> isByte b -> isByte data ->
  crcUpdate8 a data = crcUpdate8 b data -> a = b.
Proof.
  intros Ha Hb Hd H. unfold crcUpdate8 in H.
  apply rounds_inj in H; try (apply isByte_lxor; assumption).
  eapply lxor_cancel_r, H.
Qed.

Lemma crcUpdate8_inj_data (crc x y : Z) :
  isByte crc -> isByte x -> isByte y ->
  crcUpdate8 crc x = crcUpdate8 crc y -> x = y.
Proof.
  intros Hc Hx Hy H. unfold crcUpdate8 in H.
  apply rounds_inj in H; try (apply isByte_lxor; assumption).
  eapply lxor_cancel_l, H.
Qed.

Lemma fold_crc_inj (d : list Z) : forall a b,
  Forall isByte d -> isByte a -> isByte b ->
  fold_left crcUpdate8 d a = fold_left crcUpdate8 d b -> a = b.
Proof.
  induction d as [|x d IH]; intros a b Hd Ha Hb H; [exact H|].
  inversion Hd as [|? ? Hx Hd']; subst. cbn [fold_left] in H.
  apply (IH (crcUpdate8 a x) (crcUpdate8 b x)) in H;
    try assumption; try (apply CrcFacts.crcUpdate8_byte; assumption).
  eapply crcUpdate8_inj_crc; eassumption.
Qed.

(** Replacing one byte of the data changes the running checksum. *)
Lemma crc8_corrupt (d : list Z) (j : nat) (x x' : Z) :
  Forall isByte d -> isByte x' ->
  d !! j = Some x -> x' <> x ->
  crc8 (corrupt j x' d) <> crc8 d.
Proof.
  intros Hd Hx' Hj Hne Heq. unfold corrupt, crc8 in Heq.
  assert (isByte x) as Hx.
  { rewrite Forall_forall in Hd. apply Hd, list_elem_of_In, list_elem_of_lookup. eauto. }
  assert (j < length d)%nat as Hlt by (eapply lookup_lt_Some; eassumption).
  rewrite insert_take_drop in Heq by assumption.
  rewrite <- (take_drop_middle d j x Hj) in Heq at 3.
  rewrite !fold_left_app in Heq. cbn [fold_left] in Heq.
  assert (isByte (fold_left crcUpdate8 (take j d) 0)) as Hpre
    by (apply CrcFacts.fold_crc_byte; [apply Forall_take, Hd | unfold isByte; lia]).
  apply (fold_crc_inj (drop (S j) d)
           (crcUpdate8 (fold_left crcUpdate8 (take j d) 0) x')
           (crcUpdate8 (fold_left crcUpdate8 (take j d) 0) x)) in Heq;
    try (apply CrcFacts.crcUpdate8_byte; assumption);
    [|apply Forall_drop, Hd].
  apply crcUpdate8_inj_data in Heq; try assumption. contradiction.
Qed.

End CrcDetects.

(** X1. A buffer that passes [crc8CheckIButton] no longer passes after
    any one of its [n] data bytes is replaced by another byte, and it
    passes with no other checksum byte. *)
Theorem crc8CheckIButton_rejects_one_corrupted_byte
    (fuel n : nat) (d : list Z) (c : Z) (j : nat) (x' : Z) :
  (n <= length d)%nat -> Z.of_nat n <= 255 -> (n < fuel)%nat ->
  Forall isByte d -> isByte c -> isByte x' ->
  (j < n)%nat -> d !! j <> Some x' ->
  Crc.crc8CheckIButton fuel d (Z.of_nat n) c = Some true ->
  Crc.crc8CheckIButton fuel (corrupt j x' d) (Z.of_nat n) c = Some false
  /\ forall c', isByte c' -> c' <> c ->
       Crc.crc8CheckIButton fuel d (Z.of_nat n) c' = Some false.
Proof.
  intros Hn Hmax Hfuel Hd Hc Hx' Hj Hchg Hok.
  assert (forall e k, (n <= length e)%nat -> Forall isByte e -> isByte k ->
            Crc.crc8CheckIButton fuel e (Z.of_nat n) k
              = Some (Crc.crcUpdate8 (Crc.crc8 (take n e)) k =? 0)
            /\ (Crc.crcUpdate8 (Crc.crc8 (take n e)) k = 0
                <-> Crc.crc8 (take n e) = k)) as Hrun.
  { intros e k He Hbe Hk. split.
    - unfold Crc.crc8CheckIButton.
      rewrite (CrcFacts.crc8Loop_fold n fuel e (Z.of_nat n) 0 0) by lia.
      reflexivity.
    - apply CrcFacts.crcUpdate8_zero; [|assumption].
      apply CrcFacts.crc8_byte, Forall_take, Hbe. }
  destruct (Hrun d c Hn Hd Hc) as [Hrd Hzd].
  rewrite Hrd in Hok. apply (inj Some), Z.eqb_eq, Hzd in Hok.
  destruct (lookup_lt_is_Some_2 d j ltac:(lia)) as [x Hx].
  split.
  - destruct (Hrun (corrupt j x' d) c) as [Hrc Hzc]; try assumption.
    { unfold corrupt. rewrite length_insert. assumption. }
    { unfold corrupt. apply Forall_insert; assumption. }
    rewrite Hrc. f_equal. apply Z.eqb_neq. intros E. apply Hzc in E.
    unfold corrupt in E. rewrite take_insert_lt in E by assumption.
    apply (CrcDetects.crc8_corrupt (take n d) j x x').
    + apply Forall_take, Hd.
    + assumption.
    + rewrite lookup_take_lt by assumption. exact Hx.
    + intros ->. apply Hchg, Hx.
    + unfold corrupt. congruence.
  - intros c' Hc' Hne. destruct (Hrun d c' Hn Hd Hc') as [Hr' Hz'].
    rewrite Hr'. f_equal. apply Z.eqb_neq. intros E. apply Hz' in E. congruence.
Qed.

Lemma crc8CheckIButton_rejects_one_corrupted_byte_witness :
  Crc.crc8CheckIButton 8 (corrupt 3 0x00 Scenario.romA) 7 0xA2 = Some false
  /\ forall c', isByte c' -> c' <> 0xA2 ->
       Crc.crc8CheckIButton 8 Scenario.romA 7 c' = Some false.
Proof.
  apply (crc8CheckIButton_rejects_one_corrupted_byte 8 7 Scenario.romA 0xA2 3 0x00).
  - simpl. lia.
  - lia.
  - lia.
  - unfold Scenario.romA, isByte. repeat constructor; lia.
  - unfold isByte. lia.
  - unfold isByte. lia.
  - lia.
  - vm_compute. discriminate.
  - vm_compute. reflexivity.
Defined.

(** ** The rest of the interface *)

Ltac runInterface :=
  cbv [sameSoft wfAdr logged grows keepsPort released lineFloating lineDrivenHigh
       InterfaceOneWire InterfaceOneWire_destroy setRegisterMask
       writeBit readBit resetPulse activePullupDisable
       pinRead pinModeInput pinModeOutput pinLow pinHigh
       delayMicroseconds interrupts noInterrupts emit
       setDDR setPORT setInterrupts setAdrCurrent setDiscoveredDevices
       setDiscoverCallback report
       bus ioDDR ioPORT ioRegisterMask interruptsEnabled trace adrCurrent
       discoveredDevices discoverCallback reported fst snd].

Section Exit.

Context {Env : Type} `{!Port Env} {Callback : Type}.
Implicit Types s : State Env Callback.

Lemma writeBit_released v s : released (writeBit v false s).
Proof.
  destruct s as [b ddr port mask irq t adr n cb rep]. runInterface.
  destruct (negb (v =? 0)); cbn [negb]; rewrite !land_clear_same; repeat split.
Qed.

Lemma readBit_released s : released (snd (readBit s)).
Proof.
  destruct s as [b ddr port mask irq t adr n cb rep]. runInterface.
  rewrite !land_clear_same. repeat split.
Qed.

Lemma pinModeInput_released s :
  interruptsEnabled s = true -> released (pinModeInput s).
Proof.
  destruct s as [b ddr port mask irq t adr n cb rep]. runInterface.
  intros ->. rewrite !land_clear_same. repeat split.
Qed.

Lemma writeByte_released byte s :
  exists s', writeByte byte false s = Some s' /\ released s'.
Proof.
  rewrite writeByte_unroll. eexists. split; [reflexivity|].
  apply pinModeInput_released. apply writeBit_released.
Qed.

Lemma readBits_S n s :
  readBits (S n) s =
  (fst (readBit s) :: fst (readBits n (snd (readBit s))),
   snd (readBits n (snd (readBit s)))).
Proof.
  cbn [readBits]. destruct (readBit s) as [b s1]. cbn [fst snd].
  destruct (readBits n s1) as [bs s2]. reflexivity.
Qed.

Lemma readBits_released n : forall s, released (snd (readBits (S n) s)).
Proof.
  induction n as [|n IH]; intros s; rewrite readBits_S; cbn [snd].
  - apply readBit_released.
  - apply IH.
Qed.

Lemma readBits_length n : forall s, length (fst (readBits n s)) = n.
Proof.
  induction n as [|n IH]; intros s; [reflexivity|].
  rewrite readBits_S. cbn [fst length]. rewrite IH. reflexivity.
Qed.

Lemma readBits_logged n : forall s,
  logged s (snd (readBits n s)) (concat (map readEvents (fst (readBits n s)))).
Proof.
  induction n as [|n IH]; intros s.
  - apply logged_refl.
  - rewrite readBits_S. cbn [fst snd map concat].
    eapply logged_trans; [apply readBit_logged | apply IH].
Qed.

Lemma assemble_bound (bits : list Z) :
  0 <= assemble bits < 2 ^ Z.of_nat (length bits).
Proof.
  induction bits as [|b bits IH]; [cbn; lia|].
  cbn [assemble fold_right length]. fold (assemble bits).
  rewrite Nat2Z.inj_succ, Z.pow_succ_r by lia.
  destruct (negb (b =? 0)); lia.
Qed.

Lemma readEvents_no_pinHigh (bits : list Z) :
  ~ In EvPinHigh (concat (map readEvents bits)).
Proof.
  induction bits as [|b bits IH]; [intros []|].
  cbn [map concat]. rewrite in_app_iff. intros [H|H]; [|exact (IH H)].
  cbn [readEvents In] in H.
  repeat (destruct H as [H|H]; [discriminate H|]). exact H.
Qed.

(** X2. On every bus [readByte] returns: it makes eight read slots and
    nothing else (the master never drives the line high), hands back the
    byte whose bits, least significant first, are the eight samples, and
    leaves interrupts enabled and the pin floating. *)
Theorem readByte_makes_eight_read_slots s :
  exists (bits : list Z) (s' : State Env Callback),
    readByte s = Some (assemble bits, s')
    /\ length bits = 8%nat
    /\ isByte (assemble bits)
    /\ logged s s' (concat (map readEvents bits))
    /\ ~ In EvPinHigh (concat (map readEvents bits))
    /\ released s'.
Proof.
  exists (fst (readBits 8 s)), (snd (readBits 8 s)).
  split; [apply readByte_assemble|].
  split; [apply readBits_length|].
  split.
  { pose proof (assemble_bound (fst (readBits 8 s))) as Hb.
    rewrite readBits_length in Hb. exact Hb. }
  split; [apply readBits_logged|].
  split; [apply readEvents_no_pinHigh|].
  apply readBits_released.
Qed.

Lemma readBytesLoop_S count bytes i s :
  readBytesLoop (S count) bytes i s =
  '(v, s1) ← readByte s;
  readBytesLoop count (<[Z.to_nat i := v]> bytes) (i + 1) s1.
Proof. reflexivity. Qed.

Lemma readBytesLoop_spec count : forall (bytes : list Z) i s,
  0 <= i ->
  exists (groups : list (list Z)) bytes' s',
    readBytesLoop count bytes i s = Some (bytes', s')
    /\ length groups = count
    /\ Forall (fun g => length g = 8%nat) groups
    /\ logged s s' (concat (map (fun g => concat (map readEvents g)) groups))
    /\ length bytes' = length bytes
    /\ (forall k g, groups !! k = Some g -> (Z.to_nat i + k < length bytes)%nat ->
          bytes' !! (Z.to_nat i + k)%nat = Some (assemble g))
    /\ (forall k, (k < Z.to_nat i \/ Z.to_nat i + count <= k)%nat ->
          bytes' !! k = bytes !! k)
    /\ (count <> 0%nat -> released s').
Proof.
  induction count as [|count IH]; intros bytes i s Hi.
  - exists [], bytes, s. split; [reflexivity|]. split; [reflexivity|].
    split; [constructor|]. split; [apply logged_refl|]. split; [reflexivity|].
    split; [intros k g Hk; discriminate Hk|]. split; [reflexivity|].
    intros H; contradiction.
  - rewrite readBytesLoop_S.
    rewrite readByte_assemble. cbn [mbind option_bind].
    pose proof (readBits_length 8 s) as Hbits.
    pose proof (readBits_logged 8 s) as Hl.
    pose proof (readBits_released 7 s) as Hrel.
    generalize dependent (snd (readBits 8 s)). generalize dependent (fst (readBits 8 s)).
    intros bits Hbits s1 Hl Hrel.
    destruct (IH (<[Z.to_nat i := assemble bits]> bytes) (i + 1) s1 ltac:(lia))
      as (groups & bytes' & s' & Hrun & Hlen & Hall & Hl' & Hlb & Hnew & Hold & Hrel').
    replace (Z.to_nat (i + 1)) with (S (Z.to_nat i)) in * by lia.
    rewrite length_insert in Hlb, Hnew.
    exists (bits :: groups), bytes', s'. split; [exact Hrun|].
    split; [cbn [length]; congruence|].
    split; [constructor; assumption|].
    split; [cbn [map concat]; eapply logged_trans; eassumption|].
    split; [exact Hlb|]. split; [|split].
    + intros k g Hk Hin. destruct k as [|k].
      * injection Hk as <-. rewrite Nat.add_0_r in *.
        rewrite Hold by lia. apply list_lookup_insert_eq. exact Hin.
      * cbn in Hk. replace (Z.to_nat i + S k)%nat with (S (Z.to_nat i) + k)%nat by lia.
        apply Hnew; [exact Hk | lia].
    + intros k Hk. rewrite Hold by lia. apply list_lookup_insert_ne. lia.
    + intros _. destruct count as [|count].
      * cbn [readBytesLoop] in Hrun. injection Hrun as _ <-. exact Hrel.
      * apply Hrel'. discriminate.
Qed.

(** X3. On every bus [readBytes bytes len] returns. It makes [len] groups
    of eight read slots; byte [k] of the buffer, for [k < len], is the
    byte assembled from group [k], least significant bit first; the rest
    of the buffer is as it was; if [len > 0] the call ends with
    interrupts enabled and the pin floating. *)
Theorem readBytes_stores_one_byte_per_group (bytes : list Z) (len : Z) s :
  0 <= len ->
  exists (groups : list (list Z)) bytes' s',
    readBytes bytes len s = Some (bytes', s')
    /\ length groups = Z.to_nat len
    /\ Forall (fun g => length g = 8%nat) groups
    /\ logged s s' (concat (map (fun g => concat (map readEvents g)) groups))
    /\ length bytes' = length bytes
    /\ (forall k g, groups !! k = Some g -> (k < length bytes)%nat ->
          bytes' !! k = Some (assemble g))
    /\ (forall k, (Z.to_nat len <= k)%nat -> bytes' !! k = bytes !! k)
    /\ (0 < len -> released s').
Proof.
  intros Hlen. unfold readBytes.
  destruct (readBytesLoop_spec (Z.to_nat len) bytes 0 s ltac:(lia))
    as (groups & bytes' & s' & Hrun & Hg & Hall & Hl & Hlb & Hnew & Hold & Hrel).
  exists groups, bytes', s'. split; [exact Hrun|]. split; [exact Hg|].
  split; [exact Hall|]. split; [exact Hl|]. split; [exact Hlb|].
  split; [|split].
  - intros k g Hk Hin. apply (Hnew k g Hk). cbn. exact Hin.
  - intros k Hk. apply Hold. right. cbn. exact Hk.
  - intros Hpos. apply Hrel. lia.
Qed.

Lemma writeBytesLoop_S count bytes i pullup s :
  writeBytesLoop (S count) bytes i pullup s =
  s1 ← writeByte (Crc.peek bytes i) pullup s;
  writeBytesLoop count bytes (i + 1) pullup s1.
Proof. reflexivity. Qed.

Lemma peek_lookup (bytes : list Z) (i : Z) (x : Z) :
  bytes !! Z.to_nat i = Some x -> Crc.peek bytes i = x.
Proof. unfold Crc.peek. intros ->. reflexivity. Qed.

Lemma writeBytesLoop_logged count : forall (bytes : list Z) i s,
  0 <= i -> (Z.to_nat i + count <= length bytes)%nat ->
  exists s',
    writeBytesLoop count bytes i false s = Some s'
    /\ logged s s' (concat (map byteEvents (take count (drop (Z.to_nat i) bytes))))
    /\ (count <> 0%nat -> released s').
Proof.
  induction count as [|count IH]; intros bytes i s Hi Hlen.
  - exists s. split; [reflexivity|]. split; [apply logged_refl|].
    intros H; contradiction.
  - rewrite writeBytesLoop_S.
    destruct (lookup_lt_is_Some_2 bytes (Z.to_nat i) ltac:(lia)) as [x Hx].
    rewrite (peek_lookup bytes i x Hx).
    destruct (writeByte_logged x s) as (s1 & Hw & Hl).
    destruct (writeByte_released x s) as (s1' & Hw' & Hrel).
    rewrite Hw in Hw'. apply (inj Some) in Hw'. subst s1'.
    rewrite Hw. cbn [mbind option_bind].
    destruct (IH bytes (i + 1) s1 ltac:(lia) ltac:(lia)) as (s' & Hrun & Hl' & Hrel').
    exists s'. split; [exact Hrun|]. split.
    + rewrite (drop_S bytes x (Z.to_nat i) Hx). cbn [take map concat].
      replace (S (Z.to_nat i)) with (Z.to_nat (i + 1)) by lia.
      eapply logged_trans; eassumption.
    + intros _. destruct count as [|count].
      * cbn [writeBytesLoop] in Hrun. apply (inj Some) in Hrun. subst s'. exact Hrel.
      * apply Hrel'. discriminate.
Qed.

Lemma writeBytes_logged (bytes : list Z) (len : Z) s :
  0 <= len <= Z.of_nat (length bytes) ->
  exists s',
    writeBytes bytes len false s = Some s'
    /\ logged s s' (concat (map byteEvents (take (Z.to_nat len) bytes)))
    /\ (0 < len -> released s').
Proof.
  intros Hlen.
  destruct (writeBytesLoop_logged (Z.to_nat len) bytes 0 s ltac:(lia) ltac:(lia))
    as (s' & Hrun & Hl & Hrel).
  exists s'. split; [exact Hrun|]. split; [exact Hl|].
  intros Hpos. apply Hrel. lia.
Qed.

(** X4. [writeBytes bytes len false], for [len] bytes inside the buffer,
    returns on every bus after sending the first [len] bytes in buffer
    order, each as [writeByte] sends it, and nothing else; if [len > 0]
    it ends with interrupts enabled and the pin floating. *)
Theorem writeBytes_sends_the_bytes_in_order (bytes : list Z) (len : Z) s :
  0 <= len <= Z.of_nat (length bytes) ->
  exists s',
    writeBytes bytes len false s = Some s'
    /\ logged s s' (concat (map byteEvents (take (Z.to_nat len) bytes)))
    /\ (0 < len -> released s').
Proof.
  intros Hlen. unfold writeBytes.
  destruct (writeBytesLoop_logged (Z.to_nat len) bytes 0 s ltac:(lia) ltac:(lia))
    as (s' & Hrun & Hl & Hrel).
  exists s'. split; [exact Hrun|]. split; [exact Hl|].
  intros Hpos. apply Hrel. lia.
Qed.

Lemma writeByte_held byte s :
  ioRegisterMask s <> 0 ->
  exists s', writeByte byte true s = Some s'
             /\ lineDrivenHigh s' /\ interruptsEnabled s' = false
             /\ ioRegisterMask s' = ioRegisterMask s.
Proof.
  intros Hmask.
  pose proof (writeByte_unroll byte true s) as Hw. cbv iota in Hw.
  pose proof (writeByte_soft byte true s _ Hw) as (Hm & _).
  eexists. split; [exact Hw|].
  pose proof (writeByteLoop_soft 8 byte 0x01 true s _ (writeByteLoop_unroll byte true s))
    as (Hm7 & _).
  split; [apply driveHigh_spec; rewrite Hm7; exact Hmask|].
  split; [apply heldWrite_interrupts | exact Hm].
Qed.

Lemma writeBytesLoop_held count : forall (bytes : list Z) i s,
  ioRegisterMask s <> 0 ->
  exists s',
    writeBytesLoop (S count) bytes i true s = Some s'
    /\ lineDrivenHigh s' /\ interruptsEnabled s' = false.
Proof.
  induction count as [|count IH]; intros bytes i s Hmask;
    rewrite writeBytesLoop_S;
    destruct (writeByte_held (Crc.peek bytes i) s Hmask) as (s1 & Hw & Hd & Hi & Hm);
    rewrite Hw; cbn [mbind option_bind].
  - exists s1. split; [reflexivity|]. split; assumption.
  - apply IH. rewrite Hm. exact Hmask.
Qed.

(** X5. [writeBytes bytes len true] with at least one byte returns on
    every bus with the pin driving the line high and interrupts
    disabled, as [writeByte] with pull-up does. *)
Theorem writeBytes_pullup_holds_line_and_interrupts (bytes : list Z) (len : Z) s :
  ioRegisterMask s <> 0 -> 1 <= len ->
  exists s',
    writeBytes bytes len true s = Some s'
    /\ lineDrivenHigh s' /\ interruptsEnabled s' = false.
Proof.
  intros Hmask Hlen. unfold writeBytes.
  replace (Z.to_nat len) with (S (Z.to_nat (len - 1))) by lia.
  apply writeBytesLoop_held, Hmask.
Qed.

(** Sequencing of two steps that return and log. *)
Lemma seq_logged (f g : State Env Callback -> option (State Env Callback))
    (e1 e2 : list Event) s s1 s2 :
  f s = Some s1 -> logged s s1 e1 ->
  g s1 = Some s2 -> logged s1 s2 e2 ->
  (s1 ← f s; g s1) = Some s2 /\ logged s s2 (e1 ++ e2).
Proof.
  intros Hf L1 Hg L2. rewrite Hf. cbn [mbind option_bind].
  split; [exact Hg | eapply logged_trans; eassumption].
Qed.

(** A step after the reset, whose result is dropped. *)
Lemma afterReset (k : State Env Callback -> option (State Env Callback)) s :
  exists (present : bool) s1,
    resetAndPresenceDetection s = Some (present, s1)
    /\ ('(_, s) ← resetAndPresenceDetection s; k s) = k s1.
Proof.
  destruct (reset_total ONEWIRE_RETRY_RESETWAITHIGH s) as [[present s1] Er].
  fold (resetAndPresenceDetection s) in Er. rewrite Er.
  exists present, s1. split; reflexivity.
Qed.

Lemma romCommand_ROMSelect_unfold (romAdress : list Z) s :
  romCommand_ROMSelect romAdress s =
  '(_, s) ← resetAndPresenceDetection s;
  (fun s => s ← writeByte 0x55 false s; writeBytes romAdress 8 false s) s.
Proof. reflexivity. Qed.

(** X6. [romCommand_ROMSelect] returns on every bus. It runs the reset and
    does not look at its result: whether or not a device answered, and
    also when the line never went idle, it sends the byte 0x55 and then
    the 8 bytes of the address, first byte first, and ends with
    interrupts enabled and the pin floating. *)
Theorem romCommand_ROMSelect_sends_0x55_and_the_address (romAdress : list Z) s :
  (8 <= length romAdress)%nat ->
  exists (present : bool) s1 s',
    resetAndPresenceDetection s = Some (present, s1)
    /\ romCommand_ROMSelect romAdress s = Some s'
    /\ logged s1 s' (byteEvents 0x55 ++ concat (map byteEvents (take 8 romAdress)))
    /\ released s'.
Proof.
  intros Hlen. rewrite romCommand_ROMSelect_unfold.
  destruct (afterReset
              (fun s => s ← writeByte 0x55 false s; writeBytes romAdress 8 false s) s)
    as (present & s1 & Er & ->).
  destruct (writeByte_logged 0x55 s1) as (s2 & Hw & Hl).
  destruct (writeBytes_logged romAdress 8 s2 ltac:(lia))
    as (s' & Hws & Hls & Hrel).
  destruct (seq_logged (writeByte 0x55 false) (writeBytes romAdress 8 false)
              _ _ s1 s2 s' Hw Hl Hws Hls) as [Hrun Hlog].
  exists present, s1, s'. split; [exact Er|]. split; [exact Hrun|].
  split; [exact Hlog | apply Hrel; lia].
Qed.

Lemma romCommand_ROMSingle_unfold s :
  romCommand_ROMSingle s =
  '(_, s) ← resetAndPresenceDetection s; writeByte 0x33 false s.
Proof. reflexivity. Qed.

Lemma romCommand_ROMBroadcast_unfold s :
  romCommand_ROMBroadcast s =
  '(_, s) ← resetAndPresenceDetection s; writeByte 0xCC false s.
Proof. reflexivity. Qed.

Lemma writeByte_sent byte s :
  exists s', writeByte byte false s = Some s'
             /\ logged s s' (byteEvents byte) /\ released s'.
Proof.
  destruct (writeByte_logged byte s) as (s' & Hw & Hl).
  destruct (writeByte_released byte s) as (s'' & Hw' & Hrel).
  rewrite Hw in Hw'. apply (inj Some) in Hw'. subst s''.
  exists s'. split; [exact Hw|]. split; assumption.
Qed.

(** X7. [romCommand_ROMSingle] and [romCommand_ROMBroadcast] return on
    every bus: after the reset, whatever its result, they send the byte
    0x33 and 0xCC respectively and end with interrupts enabled and the
    pin floating. *)
Theorem romCommand_single_and_broadcast_send_their_byte s :
  exists (present : bool) s1,
    resetAndPresenceDetection s = Some (present, s1)
    /\ (exists s', romCommand_ROMSingle s = Some s'
                   /\ logged s1 s' (byteEvents 0x33) /\ released s')
    /\ (exists s', romCommand_ROMBroadcast s = Some s'
                   /\ logged s1 s' (byteEvents 0xCC) /\ released s').
Proof.
  rewrite romCommand_ROMSingle_unfold, romCommand_ROMBroadcast_unfold.
  destruct (afterReset (writeByte 0x33 false) s) as (present & s1 & Er & ->).
  destruct (afterReset (writeByte 0xCC false) s) as (present' & s1' & Er' & ->).
  rewrite Er in Er'. apply (inj Some) in Er'.
  assert (s1' = s1) as -> by congruence.
  exists present, s1. split; [exact Er|]. split; apply writeByte_sent.
Qed.

Lemma land_keep_clear x m : Z.land (Z.land x (Z.lnot m)) (Z.lnot m) = Z.land x (Z.lnot m).
Proof. rewrite <- Z.land_assoc, Z.land_diag. reflexivity. Qed.

Lemma land_keep_set x m : Z.land (Z.lor x m) (Z.lnot m) = Z.land x (Z.lnot m).
Proof.
  rewrite Z.land_lor_distr_l, Z.land_lnot_diag, Z.lor_0_r. reflexivity.
Qed.

Lemma constructor_mask (m : Z -> Z) (ioPin activePullupPin : Z) s :
  ioRegisterMask (InterfaceOneWire m ioPin activePullupPin s) = m ioPin.
Proof. destruct s as [b ddr port mask irq t adr n cb rep]. reflexivity. Qed.

Lemma constructor_floating (m : Z -> Z) (ioPin activePullupPin : Z) s :
  lineFloating (InterfaceOneWire m ioPin activePullupPin s).
Proof.
  destruct s as [b ddr port mask irq t adr n cb rep]. runInterface.
  rewrite !land_clear_same. split; reflexivity.
Qed.

Lemma constructor_logged (m : Z -> Z) (ioPin activePullupPin : Z) s :
  logged s (InterfaceOneWire m ioPin activePullupPin s)
         [EvPinHigh; EvPinModeInput; EvPinLow].
Proof.
  destruct s as [b ddr port mask irq t adr n cb rep]. runInterface.
  rewrite <- !app_assoc. reflexivity.
Qed.

Lemma constructor_frame (m : Z -> Z) (ioPin activePullupPin : Z) s :
  Z.land (ioDDR (InterfaceOneWire m ioPin activePullupPin s)) (Z.lnot (m ioPin))
  = Z.land (ioDDR s) (Z.lnot (m ioPin))
  /\ Z.land (ioPORT (InterfaceOneWire m ioPin activePullupPin s)) (Z.lnot (m ioPin))
     = Z.land (ioPORT s) (Z.lnot (m ioPin))
  /\ interruptsEnabled (InterfaceOneWire m ioPin activePullupPin s)
     = interruptsEnabled s.
Proof.
  destruct s as [b ddr port mask irq t adr n cb rep]. runInterface.
  rewrite !land_keep_clear, !land_keep_set. repeat split.
Qed.

Lemma destructor_spec s :
  lineFloating (InterfaceOneWire_destroy s)
  /\ keepsPort s (InterfaceOneWire_destroy s)
  /\ logged s (InterfaceOneWire_destroy s) [EvPinModeInput; EvPinLow].
Proof.
  destruct s as [b ddr port mask irq t adr n cb rep]. runInterface.
  rewrite !land_clear_same, !land_keep_clear, <- !app_assoc. repeat split.
Qed.

(** X8. The constructor stores the bit mask of the pin, calls [pinHigh]
    and [pinModeInput] and nothing else, and leaves the pin floating
    (input mode, pull-up off, since [pinModeInput] clears the output
    bit again); the bits of the other pins of the port keep their
    direction and output value, and the interrupt flag is not touched.
    The destructor leaves the pin floating and the other pins alone. *)
Theorem InterfaceOneWire_leaves_the_pin_floating
    (digitalPinToBitMask : Z -> Z) (ioPin activePullupPin : Z) s :
  ioRegisterMask (InterfaceOneWire digitalPinToBitMask ioPin activePullupPin s)
  = digitalPinToBitMask ioPin
  /\ lineFloating (InterfaceOneWire digitalPinToBitMask ioPin activePullupPin s)
  /\ logged s (InterfaceOneWire digitalPinToBitMask ioPin activePullupPin s)
            [EvPinHigh; EvPinModeInput; EvPinLow]
  /\ (Z.land (ioDDR (InterfaceOneWire digitalPinToBitMask ioPin activePullupPin s))
             (Z.lnot (digitalPinToBitMask ioPin))
      = Z.land (ioDDR s) (Z.lnot (digitalPinToBitMask ioPin))
      /\ Z.land (ioPORT (InterfaceOneWire digitalPinToBitMask ioPin activePullupPin s))
                (Z.lnot (digitalPinToBitMask ioPin))
         = Z.land (ioPORT s) (Z.lnot (digitalPinToBitMask ioPin))
      /\ interruptsEnabled (InterfaceOneWire digitalPinToBitMask ioPin activePullupPin s)
         = interruptsEnabled s)
  /\ (lineFloating (InterfaceOneWire_destroy s)
      /\ keepsPort s (InterfaceOneWire_destroy s)
      /\ logged s (InterfaceOneWire_destroy s) [EvPinModeInput; EvPinLow]).
Proof.
  split; [apply constructor_mask|]. split; [apply constructor_floating|].
  split; [apply constructor_logged|]. split; [apply constructor_frame|].
  apply destructor_spec.
Qed.

End Exit.

Lemma readBytes_stores_one_byte_per_group_witness :
  exists (groups : list (list Z)) bytes' (s' : State Loopback.Env nat),
    readBytes [0; 0; 0x5A] 2 Loopback.start = Some (bytes', s')
    /\ length groups = 2%nat
    /\ (forall k g, groups !! k = Some g -> (k < 3)%nat ->
          bytes' !! k = Some (assemble g))
    /\ bytes' !! 2%nat = Some 0x5A
    /\ released s'.
Proof.
  destruct (readBytes_stores_one_byte_per_group [0; 0; 0x5A] 2 Loopback.start)
    as (groups & bytes' & s' & Hrun & Hg & _ & _ & _ & Hnew & Hold & Hrel).
  - lia.
  - exists groups, bytes', s'. split; [exact Hrun|]. split; [exact Hg|].
    split; [exact Hnew|]. split; [apply (Hold 2%nat); simpl; lia | apply Hrel; lia].
Defined.

Lemma writeBytes_sends_the_bytes_in_order_witness :
  exists s' : State Loopback.Env nat,
    writeBytes [0x55; 0xA5; 0x00] 2 false Loopback.start = Some s'
    /\ logged Loopback.start s' (byteEvents 0x55 ++ byteEvents 0xA5 ++ [])
    /\ released s'.
Proof.
  destruct (writeBytes_sends_the_bytes_in_order [0x55; 0xA5; 0x00] 2 Loopback.start)
    as (s' & Hrun & Hl & Hrel).
  - simpl. lia.
  - exists s'. split; [exact Hrun|]. split; [exact Hl | apply Hrel; lia].
Defined.

Lemma writeBytes_pullup_holds_line_and_interrupts_witness :
  exists s' : State ScriptBus.Env nat,
    writeBytes [0x44; 0xBE] 2 true Scenario.busyPort = Some s'
    /\ lineDrivenHigh s' /\ interruptsEnabled s' = false.
Proof.
  apply (writeBytes_pullup_holds_line_and_interrupts [0x44; 0xBE] 2 Scenario.busyPort).
  - simpl. lia.
  - lia.
Defined.

Lemma romCommand_ROMSelect_sends_0x55_and_the_address_witness :
  exists (present : bool) (s1 s' : State ScriptBus.Env nat),
    resetAndPresenceDetection Scenario.stuckLow = Some (present, s1)
    /\ romCommand_ROMSelect Scenario.romA Scenario.stuckLow = Some s'
    /\ logged s1 s' (byteEvents 0x55
                     ++ concat (map byteEvents (take 8 Scenario.romA)))
    /\ released s'.
Proof.
  apply (romCommand_ROMSelect_sends_0x55_and_the_address Scenario.romA Scenario.stuckLow).
  simpl. lia.
Defined.

(** ** Timing *)

Lemma elapsed_app (e1 e2 : list Event) : elapsed (e1 ++ e2) = elapsed e1 + elapsed e2.
Proof.
  induction e1 as [|e e1 IH]; [reflexivity|].
  cbn [app]. unfold elapsed in *. cbn [fold_right]. rewrite IH.
  destruct e; lia.
Qed.

Lemma elapsed_lowPolls (k : nat) : elapsed (lowPolls k) = 5 * Z.of_nat k.
Proof.
  induction k as [|k IH]; [reflexivity|].
  rewrite lowPolls_S, elapsed_app, IH. cbn [elapsed fold_right]. lia.
Qed.

Lemma writtenBits_byteEvents (byte : Z) :
  isByte byte -> writtenBits (byteEvents byte) = lsbFirst byte.
Proof.
  intros Hb.
  pose proof (byte_forall
    (fun x => bool_decide (writtenBits (byteEvents x) = lsbFirst x))) as H.
  specialize (H ltac:(vm_compute; reflexivity) byte Hb).
  apply bool_decide_eq_true in H. exact H.
Qed.

Section Timing.

Context {Env : Type} `{!Port Env} {Callback : Type}.
Implicit Types s : State Env Callback.

(** X9. On every bus [writeByte byte false] makes eight write slots and
    releases the pin; a device that reads a slot as 1 when the low pulse
    is shorter than 15 us receives the bits of [byte], least significant
    first. *)
Theorem writeByte_slots_carry_the_bits_lsb_first (byte : Z) s :
  isByte byte ->
  exists s',
    writeByte byte false s = Some s'
    /\ logged s s' (byteEvents byte)
    /\ writtenBits (byteEvents byte) = lsbFirst byte.
Proof.
  intros Hb. destruct (writeByte_logged byte s) as (s' & Hw & Hl).
  exists s'. split; [exact Hw|]. split; [exact Hl|].
  apply writtenBits_byteEvents, Hb.
Qed.

(** X10. [resetAndPresenceDetection] returns on every bus, and within a
    bounded time: the delays it makes add up to at most 1955 us. When it
    gives up on a line that stays low it has made 199 polls, 995 us, and
    no reset pulse. *)
Theorem reset_returns_within_bounded_time s :
  exists (present : bool) s' evs,
    resetAndPresenceDetection s = Some (present, s')
    /\ logged s s' evs
    /\ elapsed evs <= 1955
    /\ (evs = giveUpEvents 199 /\ present = false /\ elapsed evs = 995
        \/ exists k v, (k < 199)%nat /\ evs = resetEvents k v /\ present = (v =? 0)).
Proof.
  destruct (reset_total ONEWIRE_RETRY_RESETWAITHIGH s) as [[present s'] Er].
  fold (resetAndPresenceDetection s) in Er.
  exists present, s'.
  destruct (reset_paths _ _ _ _ Er) as [(Hp & _ & Hl) | (k & v & Hk & Hp & _ & Hl)].
  - exists (giveUpEvents 199). split; [exact Er|]. split; [exact Hl|].
    split; [vm_compute; discriminate|]. left.
    split; [reflexivity|]. split; [exact Hp | vm_compute; reflexivity].
  - change (waitRounds (ONEWIRE_RETRY_RESETWAITHIGH mod 256) - 1) with 199 in Hk.
    exists (resetEvents k v). split; [exact Er|]. split; [exact Hl|]. split.
    + unfold resetEvents. rewrite !elapsed_app, elapsed_lowPolls.
      cbn [elapsed fold_right pulseEvents]. lia.
    + right. exists k, v. split; [lia|]. split; [reflexivity | exact Hp].
Qed.


(** X12. Without a callback [discoverDevices] returns 0 at once: no
    event on the bus, registers and interrupt flag as they were, the
    callback log and the identifier buffer untouched. It has set the
    device counter to 0 and stored the null callback. *)
Theorem discoverDevices_without_callback_touches_nothing (alarmSearch : bool) s :
  exists s',
    discoverDevices None alarmSearch s = Some (Returned 0, s')
    /\ trace s' = trace s /\ bus s' = bus s
    /\ ioDDR s' = ioDDR s /\ ioPORT s' = ioPORT s
    /\ interruptsEnabled s' = interruptsEnabled s
    /\ reported s' = reported s /\ adrCurrent s' = adrCurrent s
    /\ discoveredDevices s' = 0 /\ discoverCallback s' = None.
Proof.
  rewrite discoverDevices_unfold. eexists. split; [reflexivity|].
  destruct s as [b ddr port mask irq t adr n cb rep]. repeat split.
Qed.

End Timing.

Lemma writeByte_slots_carry_the_bits_lsb_first_witness :
  exists s' : State Loopback.Env nat,
    writeByte 0xF0 false Loopback.start = Some s'
    /\ logged Loopback.start s' (byteEvents 0xF0)
    /\ writtenBits (byteEvents 0xF0) = lsbFirst 0xF0.
Proof.
  apply (writeByte_slots_carry_the_bits_lsb_first 0xF0 Loopback.start).
  unfold isByte. lia.
Defined.

(** ** One device on a scripted bus *)

Lemma romBit_bitOf (rom : list Z) (i : nat) :
  ScriptBus.romBit rom i = bitOf rom (Z.of_nat i).
Proof.
  unfold ScriptBus.romBit, bitOf.
  rewrite Nat2Z.inj_div, Nat2Z.inj_mod. reflexivity.
Qed.

Lemma byte_high_bits (x k : Z) : isByte x -> 8 <= k -> Z.testbit x k = false.
Proof.
  intros Hx Hk. rewrite <- (Z.mod_small x (2 ^ 8)) by (unfold isByte in Hx; lia).
  apply Z.mod_pow2_bits_high. lia.
Qed.

(** Two 8-byte identifiers with the same 64 bits are the same. *)
Lemma bitOf_ext (a b : list Z) :
  length a = 8%nat -> length b = 8%nat ->
  Forall isByte a -> Forall isByte b ->
  (forall i, 0 <= i < 64 -> bitOf a i = bitOf b i) ->
  a = b.
Proof.
  intros Ha Hb Hba Hbb H. apply list_eq. intros j.
  destruct (decide (j < 8)%nat) as [Hj|Hj].
  - destruct (lookup_lt_is_Some_2 a j ltac:(lia)) as [x Hx].
    destruct (lookup_lt_is_Some_2 b j ltac:(lia)) as [y Hy].
    rewrite Hx, Hy. f_equal.
    assert (isByte x) as Bx by exact (Forall_lookup_1 _ _ _ _ Hba Hx).
    assert (isByte y) as By by exact (Forall_lookup_1 _ _ _ _ Hbb Hy).
    apply Z.bits_inj'. intros k Hk.
    destruct (Z_lt_ge_dec k 8) as [Hlt|Hge].
    + specialize (H (8 * Z.of_nat j + k) ltac:(lia)). unfold bitOf, Crc.peek in H.
      replace ((8 * Z.of_nat j + k) / 8) with (Z.of_nat j) in H
        by (apply Z.div_unique with k; lia).
      replace ((8 * Z.of_nat j + k) mod 8) with k in H
        by (apply Z.mod_unique with (Z.of_nat j); lia).
      rewrite Nat2Z.id, Hx, Hy in H. exact H.
    + rewrite !byte_high_bits by (assumption || lia). reflexivity.
  - rewrite !lookup_ge_None_2 by lia. reflexivity.
Qed.

Section Script.

Implicit Types s : State ScriptBus.Env nat.

Lemma script_readBit s (v : Z) (rest : list Z) :
  bus s = v :: rest ->
  fst (readBit s) = (if negb (Z.land v (ioRegisterMask s) =? 0) then 1 else 0)
  /\ bus (snd (readBit s)) = rest.
Proof.
  destruct s as [b ddr port mask irq t adr n cb rep]. cbn [bus].
  intros ->. split; reflexivity.
Qed.

Lemma script_writeBit v k s : bus (writeBit v k s) = bus s.
Proof.
  destruct s as [b ddr port mask irq t adr n cb rep].
  unfold writeBit. destruct (negb (v =? 0)), k; reflexivity.
Qed.

Lemma bus_adrSetBit level s : bus (adrSetBit level s) = bus s.
Proof. destruct s. reflexivity. Qed.

Lemma bus_adrClearBit level s : bus (adrClearBit level s) = bus s.
Proof. destruct s. reflexivity. Qed.

Lemma bus_report id s : bus (report id s) = bus s.
Proof. destruct s. reflexivity. Qed.

(** A bit/complement pair sent by devices that agree on the bit. *)
Lemma script_pair s (bit : bool) (rest : list Z) :
  ioRegisterMask s = 1 ->
  bus s = ScriptBus.agreeSamples bit ++ rest ->
  exists s1 s2,
    readBit s = (Z.b2z bit, s1) /\ readBit s1 = (Z.b2z (negb bit), s2)
    /\ bus s2 = rest /\ sameSoft s s2.
Proof.
  intros Hmask Hbus.
  pose proof (readBit_soft s) as S1.
  assert (bus s = (if bit then 0xFF else 0x00) :: (if bit then 0x00 else 0xFF) :: rest)
    as Hbus' by (rewrite Hbus; destruct bit; reflexivity).
  destruct (script_readBit s _ _ Hbus') as [Ha Hb1].
  destruct (readBit s) as [a s1] eqn:E1. cbn [fst snd] in *.
  pose proof (readBit_soft s1) as S2.
  destruct (script_readBit s1 _ _ Hb1) as [Hb Hb2].
  destruct (readBit s1) as [b s2] eqn:E2. cbn [fst snd] in *.
  exists s1, s2.
  assert (ioRegisterMask s1 = 1) as Hm1 by (rewrite (proj1 S1); exact Hmask).
  rewrite Hmask in Ha. rewrite Hm1 in Hb. rewrite E2.
  split; [rewrite Ha; destruct bit; reflexivity|].
  split; [rewrite Hb; destruct bit; reflexivity|].
  split; [exact Hb2 | eapply sameSoft_trans; eassumption].
Qed.

Lemma walkSamples_S (rom : list Z) (level n : nat) :
  ScriptBus.walkSamples rom level (S n)
  = ScriptBus.agreeSamples (ScriptBus.romBit rom level)
    ++ ScriptBus.walkSamples rom (S level) n.
Proof. reflexivity. Qed.

Lemma reported_report id s : reported (report id s) = reported s ++ [id].
Proof. destruct s. reflexivity. Qed.

Lemma wfAdr_report id s : wfAdr s -> wfAdr (report id s).
Proof. destruct s. exact (fun H => H). Qed.

Lemma mask_adrSetBit level s : ioRegisterMask (adrSetBit level s) = ioRegisterMask s.
Proof. destruct s. reflexivity. Qed.

Lemma mask_adrClearBit level s : ioRegisterMask (adrClearBit level s) = ioRegisterMask s.
Proof. destruct s. reflexivity. Qed.

(** With one device left on the bus the search walks down its bits. *)
Lemma walk_single (rom : list Z) (alarmSearch : bool) (n : nat) :
  forall (level fuel : nat) s (rest : list Z),
    (level + n = 64)%nat -> (n < fuel)%nat ->
    ioRegisterMask s = 1 -> discoverCallback s <> None ->
    bus s = ScriptBus.walkSamples rom level n ++ rest ->
    wfAdr s ->
    (forall i, 0 <= i < Z.of_nat level -> bitOf (adrCurrent s) i = bitOf rom i) ->
    exists s',
      discoveryDevicesRecursive fuel (Z.of_nat level) alarmSearch s = Some s'
      /\ bus s' = rest /\ wfAdr s'
      /\ (forall i, 0 <= i < 64 -> bitOf (adrCurrent s') i = bitOf rom i)
      /\ (validRom (adrCurrent s') -> reported s' = reported s ++ [adrCurrent s'])
      /\ (~ validRom (adrCurrent s') -> reported s' = reported s).
Proof.
  induction n as [|n IH]; intros level fuel s rest Hlevel Hfuel Hmask Hcb Hbus Hwf Hbits;
    (destruct fuel as [|fuel]; [lia|]); rewrite discoveryDevicesRecursive_S;
    change (8 * 8) with 64.
  - assert (level = 64%nat) as -> by lia. change (Z.of_nat 64 =? 64) with true.
    cbv iota. destruct Hwf as [Hlen Hbytes].
    rewrite check_fold by exact Hlen. cbn [mbind option_bind].
    pose proof (validRom_check (adrCurrent s) Hlen Hbytes) as Hv.
    destruct (Crc.crcUpdate8 (Crc.crc8 (take 7 (adrCurrent s)))
                (Crc.peek (adrCurrent s) (8 - 1)) =? 0).
    + unfold invokeCallback. destruct (discoverCallback s); [|contradiction].
      exists (report (adrCurrent s) s).
      rewrite adrCurrent_report, reported_report, bus_report.
      split; [reflexivity|]. split; [exact Hbus|].
      split; [apply wfAdr_report; split; assumption|].
      split; [exact Hbits|]. split; [reflexivity|].
      intros Hn. exfalso. apply Hn, Hv. reflexivity.
    + exists s. split; [reflexivity|]. split; [exact Hbus|].
      split; [split; assumption|]. split; [exact Hbits|]. split; [|reflexivity].
      intros Hy. apply Hv in Hy. discriminate Hy.
  - replace (Z.of_nat level =? 64) with false by (symmetry; apply Z.eqb_neq; lia).
    cbv iota. rewrite (Z.mod_small (Z.of_nat level + 1) 256) by lia.
    replace (Z.of_nat level + 1) with (Z.of_nat (S level)) by lia.
    rewrite walkSamples_S, <- app_assoc in Hbus.
    destruct (script_pair s _ _ Hmask Hbus) as (s1 & s2 & E1 & E2 & Hbus2 & S2).
    rewrite E1. cbv iota. rewrite E2. cbv iota.
    assert (wfAdr s2) as Hwf2 by (eapply sameSoft_wfAdr; eassumption).
    assert (adrCurrent s2 = adrCurrent s) as Hadr2 by apply (sameSoft_adr _ _ S2).
    assert (reported s2 = reported s) as Hrep2 by apply (sameSoft_reported _ _ S2).
    assert (ioRegisterMask s2 = 1) as Hmask2 by (rewrite (proj1 S2); exact Hmask).
    assert (discoverCallback s2 <> None) as Hcb2
      by (eapply grows_callback; [apply sameSoft_grows, S2 | exact Hcb]).
    pose proof (romBit_bitOf rom level) as Hrom.
    destruct (ScriptBus.romBit rom level); cbn [Z.b2z negb].
    + change ((1 =? 1) && (0 =? 1)) with false.
      change ((1 =? 0) && (0 =? 1)) with false.
      change ((1 =? 1) && (0 =? 0)) with true. cbv iota.
      destruct (IH (S level) fuel (writeBit 1 false (adrSetBit (Z.of_nat level) s2)) rest)
        as (s' & Hrun & Hb' & Hwf' & Hbits' & Hy & Hn); try lia.
      * rewrite (proj1 (writeBit_soft 1 false _)), mask_adrSetBit. exact Hmask2.
      * eapply grows_callback; [apply oneStep_grows | exact Hcb2].
      * rewrite script_writeBit, bus_adrSetBit. exact Hbus2.
      * destruct (oneStep_grows (Z.of_nat level) s2) as (_ & _ & new & _ & Hw).
        apply Hw, Hwf2.
      * intros i Hi. rewrite oneStep_adr.
        destruct (decide (i = Z.of_nat level)) as [->|Hne].
        -- rewrite <- Hrom.
           apply (adrSetBit_records (Z.of_nat level) s2); [lia | apply Hwf2].
        -- rewrite adrSetBit_other, Hadr2 by lia. apply Hbits. lia.
      * exists s'. split; [exact Hrun|]. split; [exact Hb'|]. split; [exact Hwf'|].
        split; [exact Hbits'|].
        rewrite (sameSoft_reported _ _ (writeBit_soft 1 false _)) in Hy, Hn.
        rewrite reported_adrSetBit, Hrep2 in Hy, Hn. split; assumption.
    + change ((0 =? 1) && (1 =? 1)) with false.
      change ((0 =? 0) && (1 =? 1)) with true. cbv iota.
      destruct (IH (S level) fuel (writeBit 0 false (adrClearBit (Z.of_nat level) s2)) rest)
        as (s' & Hrun & Hb' & Hwf' & Hbits' & Hy & Hn); try lia.
      * rewrite (proj1 (writeBit_soft 0 false _)), mask_adrClearBit. exact Hmask2.
      * eapply grows_callback; [apply zeroStep_grows | exact Hcb2].
      * rewrite script_writeBit, bus_adrClearBit. exact Hbus2.
      * destruct (zeroStep_grows (Z.of_nat level) s2) as (_ & _ & new & _ & Hw).
        apply Hw, Hwf2.
      * intros i Hi. rewrite zeroStep_adr.
        destruct (decide (i = Z.of_nat level)) as [->|Hne].
        -- rewrite <- Hrom.
           apply (adrClearBit_records (Z.of_nat level) s2); [lia | apply Hwf2].
        -- rewrite adrClearBit_other, Hadr2 by lia. apply Hbits. lia.
      * exists s'. split; [exact Hrun|]. split; [exact Hb'|]. split; [exact Hwf'|].
        split; [exact Hbits'|].
        rewrite (sameSoft_reported _ _ (writeBit_soft 0 false _)) in Hy, Hn.
        rewrite reported_adrClearBit, Hrep2 in Hy, Hn. split; assumption.
Qed.

(** The start of [discoverDevices] on a bus where a device answers the
    reset and then sends the samples [samples]; [k] is the rest of the
    body. *)
Lemma oneDevice_prefix (samples : list Z) (cb : nat) (alarmSearch : bool)
    (k : State ScriptBus.Env nat -> option (RetVal * State ScriptBus.Env nat)) :
  ('(present, s) ← resetAndPresenceDetection
       (clearAdrCurrent
          (setDiscoverCallback (Some cb)
             (setDiscoveredDevices 0
                (ScriptBus.start (ScriptBus.resetSamples true ++ samples)
                                 Scenario.zeroAdr None))));
   if negb present then Some (Returned 0, s)
   else s ← searchCommand alarmSearch s; k s)
  = k (mkState samples 0 0 0x01 true
               (resetEvents 0 0 ++ searchCommandEvents alarmSearch)
               Scenario.zeroAdr 0 (Some cb) []).
Proof. destruct alarmSearch; vm_compute; reflexivity. Qed.

(** X13. One device on the bus, which answers the reset and sends the
    bit/complement pairs of the 8 bytes [rom]: [discoverDevices] walks
    the 64 bits without a collision, ends with exactly [rom] in the
    identifier buffer and every sample consumed, and calls the callback
    once, with [rom], if the last byte of [rom] is the CRC-8 of the
    first 7, and not at all if it is not. *)
Theorem search_reconstructs_a_single_device
    (rom : list Z) (cb : nat) (alarmSearch : bool) :
  length rom = 8%nat -> Forall isByte rom ->
  exists s',
    discoverDevices (Some cb) alarmSearch (Scenario.oneDevice rom)
      = Some (NoReturnValue, s')
    /\ adrCurrent s' = rom
    /\ bus s' = []
    /\ (validRom rom -> reported s' = [rom])
    /\ (~ validRom rom -> reported s' = []).
Proof.
  intros Hlen Hbytes. rewrite discoverDevices_unfold. unfold Scenario.oneDevice.
  pose proof (oneDevice_prefix (ScriptBus.walkSamples rom 0 64) cb alarmSearch
                (fun s => s ← discoveryDevicesRecursive 65 0 alarmSearch s;
                          Some (NoReturnValue, s))) as Hpre.
  cbv beta in Hpre. rewrite Hpre. clear Hpre.
  destruct (walk_single rom alarmSearch 64 0 65
              (mkState (ScriptBus.walkSamples rom 0 64) 0 0 0x01 true
                       (resetEvents 0 0 ++ searchCommandEvents alarmSearch)
                       Scenario.zeroAdr 0 (Some cb) []) [])
    as (s' & Hrun & Hbus & Hwf & Hbits & Hy & Hn).
  - reflexivity.
  - lia.
  - reflexivity.
  - discriminate.
  - cbn [bus]. rewrite app_nil_r. reflexivity.
  - split; [reflexivity|]. unfold Scenario.zeroAdr, isByte. repeat constructor; lia.
  - intros i Hi. cbn in Hi. lia.
  - change (Z.of_nat 0) with 0 in Hrun. rewrite Hrun. cbn [mbind option_bind].
    assert (adrCurrent s' = rom) as Hadr
      by (destruct Hwf; apply bitOf_ext; assumption).
    exists s'. split; [reflexivity|]. split; [exact Hadr|]. split; [exact Hbus|].
    rewrite Hadr in Hy, Hn. cbn [reported app] in Hy, Hn. split; assumption.
Qed.

End Script.

Lemma search_reconstructs_a_single_device_witness :
  exists s',
    discoverDevices (Some 0%nat) false (Scenario.oneDevice Scenario.romA)
      = Some (NoReturnValue, s')
    /\ adrCurrent s' = Scenario.romA
    /\ bus s' = []
    /\ (validRom Scenario.romA -> reported s' = [Scenario.romA])
    /\ (~ validRom Scenario.romA -> reported s' = []).
Proof.
  apply (search_reconstructs_a_single_device Scenario.romA 0%nat false).
  - reflexivity.
  - unfold Scenario.romA, isByte. repeat constructor; lia.
Defined.

(** ** The other pins of the port *)


Section OtherPins.

Context {Env : Type} `{!Port Env} {Callback : Type}.
Implicit Types s : State Env Callback.































End OtherPins.
